(** * ausome-scraper: the per-URL scrape pipeline and its store

    A shallow embedding of the two scraper programs of the repository:
    the urls.json-driven scraper (its [scrapeProducts] creates one browser
    per URL, paces with random delays and captures a screenshot on failure)
    and the static-list scraper of [main/main.go] (one browser created in
    [main], fixed delay).  Both share [Product] and [updateProduct].

    The outside world (file system, JSON decoder, browser, random source,
    clock, database connection) is an explicit environment; everything the
    programs do to it is recorded in a trace of events. *)

From Stdlib Require Import ZArith List String Ascii Bool Lia Permutation.
From Stdlib Require Import Floats.SpecFloat.
Import ListNotations.
Local Open Scope string_scope.
Local Open Scope Z_scope.

(** ** Go values *)

(** An [error] value is its message; the nil error is [None]. *)
Definition error := string.

Inductive result (A : Type) : Type :=
| Ok (a : A)
| Err (e : error).
Arguments Ok {A} a.
Arguments Err {A} e.

(** [float64]: IEEE 754 binary64 values; the zero value is [+0]. *)
Definition float64 := spec_float.
Definition float64_zero : float64 := S754_zero false.

(** [time.Time] as nanoseconds since the epoch, [time.Duration] as
    nanoseconds. *)
Definition Time := Z.
Definition Duration := Z.
Definition Second : Duration := 1000000000.
Definition Minute : Duration := 60 * Second.
Definition Time_zero : Time := 0.

Record Product := mkProduct {
  ID : Z;
  URL : string;
  Name : string;
  InStock : bool;
  Price : float64;
  ImageURL : string;
  UpdatedAt : Time
}.

(** ** The products table *)

Record Row := mkRow {
  id : Z;
  url : string;
  name : string;
  in_stock : bool;
  price : float64;
  image_url : string;
  updated_at : Time
}.

(** Modelled from the spec: the [products] table is not declared in the
    sources; its columns are [(id, url unique, name, in_stock, price,
    image_url, updated_at)], [id] being assigned by the store.  The table
    is the list of its rows in insertion order together with the last
    value handed out by the id sequence. *)
Record Table := mkTable {
  rows : list Row;
  id_seq : Z
}.

Definition empty_table : Table := {| rows := []; id_seq := 0 |}.

(** The unique constraint on [url], which [ON CONFLICT (url)] relies on. *)
Definition unique_url (t : Table) : Prop := NoDup (map url (rows t)).

Definition conflict (u : string) (r : Row) : bool := String.eqb (url r) u.

(** [SELECT * FROM products WHERE url = u]. *)
Definition select_url (u : string) (t : Table) : list Row :=
  filter (conflict u) (rows t).

Section Upsert.
(** The six placeholders [$1 .. $6] of the statement. *)
Variables (a1 a2 : string) (a3 : bool) (a4 : float64) (a5 : string) (a6 : Time).

(** [DO UPDATE SET name = $2, in_stock = $3, price = $4, image_url = $5,
    updated_at = $6]: [id] and [url] are not assigned. *)
Definition do_update (r : Row) : Row :=
  {| id := id r; url := url r;
     name := a2; in_stock := a3; price := a4; image_url := a5;
     updated_at := a6 |}.

(** [INSERT INTO products (url, name, in_stock, price, image_url,
    updated_at) VALUES ($1, ..., $6)] with the next id of the sequence. *)
Definition inserted (nid : Z) : Row :=
  {| id := nid; url := a1;
     name := a2; in_stock := a3; price := a4; image_url := a5;
     updated_at := a6 |}.

(** The whole statement.  The default of [id] is computed before the
    conflict is detected, so the sequence advances in both branches. *)
Definition exec_upsert (t : Table) : Table :=
  let nid := id_seq t + 1 in
  if existsb (conflict a1) (rows t)
  then {| rows := map (fun r => if conflict a1 r then do_update r else r) (rows t);
          id_seq := nid |}
  else {| rows := rows t ++ [inserted nid];
          id_seq := nid |}.
End Upsert.

(** The database handle: the table, and the outcome the connection imposes
    on each coming [Exec] (head first; [None] or an exhausted list lets the
    statement run). *)
Record DB := mkDB {
  products : Table;
  faults : list (option error)
}.

Definition db_Exec (db : DB) (a1 a2 : string) (a3 : bool) (a4 : float64)
    (a5 : string) (a6 : Time) : DB * option error :=
  match faults db with
  | Some e :: rest => ({| products := products db; faults := rest |}, Some e)
  | None :: rest =>
      ({| products := exec_upsert a1 a2 a3 a4 a5 a6 (products db); faults := rest |}, None)
  | [] =>
      ({| products := exec_upsert a1 a2 a3 a4 a5 a6 (products db); faults := [] |}, None)
  end.

(** [updateProduct], the same in both programs. *)
Definition updateProduct (db : DB) (product : Product) : DB * option error :=
  db_Exec db (URL product) (Name product) (InStock product) (Price product)
    (ImageURL product) (UpdatedAt product).

(** A sequence of upserts, with the error each call returned. *)
Fixpoint upserts (db : DB) (ps : list Product) : DB * list (option error) :=
  match ps with
  | [] => (db, [])
  | p :: rest =>
      let (db1, e) := updateProduct db p in
      let (db2, es) := upserts db1 rest in
      (db2, e :: es)
  end.

(** The row agrees with the product on every column the statement writes. *)
Definition row_matches (r : Row) (p : Product) : Prop :=
  name r = Name p /\ in_stock r = InStock p /\ price r = Price p /\
  image_url r = ImageURL p /\ updated_at r = UpdatedAt p.

(** ** Text *)

Definition byte_of (n : nat) : ascii := ascii_of_nat n.
Definition is_byte (n : nat) (c : ascii) : bool := Nat.eqb (nat_of_ascii c) n.
Definition in_range (lo hi : nat) (c : ascii) : bool :=
  Nat.leb lo (nat_of_ascii c) && Nat.leb (nat_of_ascii c) hi.

(** The double quote, for selectors that contain one. *)
Definition dq : string := String (byte_of 34) EmptyString.

(** Decimal rendering of an integer, as [%d] prints it. *)
Fixpoint digits (fuel : nat) (n : Z) (acc : string) : string :=
  match fuel with
  | O => acc
  | S fuel' =>
      let acc' := String (byte_of (48 + Z.to_nat (n mod 10))) acc in
      if n / 10 =? 0 then acc' else digits fuel' (n / 10) acc'
  end.

Definition itoa (n : Z) : string :=
  if n <? 0 then "-" ++ digits (S (Z.to_nat (Z.log2 (- n)))) (- n) ""
  else digits (S (Z.to_nat (Z.log2 n))) n "".

Definition btoa (b : bool) : string := if b then "true" else "false".

(** ECMAScript white space and line terminators, in their UTF-8 encoding:
    one byte (TAB, LF, VT, FF, CR, SP), two bytes (U+00A0) or three bytes
    (U+1680, U+2000..U+200A, U+2028, U+2029, U+202F, U+205F, U+3000,
    U+FEFF). *)
Definition ws1 (c : ascii) : bool := in_range 9 13 c || is_byte 32 c.
Definition ws2 (c1 c2 : ascii) : bool := is_byte 194 c1 && is_byte 160 c2.
Definition ws3 (c1 c2 c3 : ascii) : bool :=
  (is_byte 225 c1 && is_byte 154 c2 && is_byte 128 c3)
  || (is_byte 226 c1 && is_byte 128 c2
      && (in_range 128 138 c3 || is_byte 168 c3 || is_byte 169 c3 || is_byte 175 c3))
  || (is_byte 226 c1 && is_byte 129 c2 && is_byte 159 c3)
  || (is_byte 227 c1 && is_byte 128 c2 && is_byte 128 c3)
  || (is_byte 239 c1 && is_byte 187 c2 && is_byte 191 c3).

(** Strip white space from the front; [fwd] tells whether the bytes are read
    in their order or, for the pass from the end, reversed. *)
Fixpoint strip (fwd : bool) (s : string) : string :=
  match s with
  | EmptyString => s
  | String c1 r1 =>
      if ws1 c1 then strip fwd r1 else
      match r1 with
      | String c2 r2 =>
          if (if fwd then ws2 c1 c2 else ws2 c2 c1) then strip fwd r2 else
          match r2 with
          | String c3 r3 =>
              if (if fwd then ws3 c1 c2 c3 else ws3 c3 c2 c1) then strip fwd r3 else s
          | EmptyString => s
          end
      | EmptyString => s
      end
  end.

Definition string_rev (s : string) : string :=
  string_of_list_ascii (rev (list_ascii_of_string s)).

(** [String.prototype.trim]. *)
Definition trim (s : string) : string :=
  string_rev (strip false (string_rev (strip true s))).

(** ** The page and the scripts evaluated on it *)

Record Element := mkElement {
  textContent : string;
  src : string
}.

(** A document, seen through [document.querySelector]: the first element a
    selector matches, or null. *)
Definition Page := string -> option Element.

Definition about_blank : Page := fun _ => None.

(** JavaScript [a || b] on element-or-null values (an element is truthy). *)
Definition js_or (a b : option Element) : option Element :=
  match a with
  | Some _ => a
  | None => b
  end.

(** JavaScript [!a]. *)
Definition js_not (a : option Element) : bool :=
  match a with
  | Some _ => false
  | None => true
  end.

Inductive JSValue :=
| JString (s : string)
| JBool (b : bool).

(** The value of a script on a document. *)
Definition Evaluation := Page -> JSValue.

Definition sel_productName : string := "h1[automation-id=" ++ dq ++ "productName" ++ dq ++ "]".
Definition sel_productTitle : string := ".product-title".
Definition sel_h1 : string := "h1".

(** The out-of-stock markers, in the order the script queries them. *)
Definition oos_markers : list string :=
  [ "[automation-id=" ++ dq ++ "outOfStockMessage" ++ dq ++ "]";
    ".out-of-stock-msg";
    ".oos-overlay" ].

(** The candidate image selectors of [main/main.go], in order. *)
Definition image_selectors : list string :=
  [ "img[alt*=" ++ dq ++ "Product" ++ dq ++ "]";
    "img[alt*=" ++ dq ++ "product" ++ dq ++ "]";
    ".MuiBox-root img";
    "[data-testid=" ++ dq ++ "Clickzoom_image_container" ++ dq ++ "] img";
    "#zoomImg_wrapper img" ].

(** The name script of the urls.json scraper. *)
Definition name_script : Evaluation := fun document =>
  let nameElement :=
    js_or (js_or (document sel_productName) (document sel_productTitle))
          (document sel_h1) in
  match nameElement with
  | Some e => JString (trim (textContent e))
  | None => JString ""
  end.

(** The name script of [main/main.go]. *)
Definition name_script_h1 : Evaluation := fun document =>
  match document sel_h1 with
  | Some e => JString (trim (textContent e))
  | None => JString ""
  end.

(** The stock script, the same in both programs. *)
Definition stock_script : Evaluation := fun document =>
  let outOfStock :=
    js_or (js_or (document (nth 0 oos_markers "")) (document (nth 1 oos_markers "")))
          (document (nth 2 oos_markers "")) in
  JBool (js_not outOfStock).

(** The [for (const selector of selectors)] loop of the image script. *)
Fixpoint first_image (document : Page) (selectors : list string) : string :=
  match selectors with
  | [] => ""
  | selector :: rest =>
      match document selector with
      | Some img => src img
      | None => first_image document rest
      end
  end.

Definition image_script : Evaluation := fun document =>
  JString (first_image document image_selectors).

(** The four script texts the programs hand to the browser, and what the
    browser computes for each. *)
Inductive Script :=
| js_name
| js_name_h1
| js_stock
| js_image.

Definition evaluate (script : Script) : Evaluation :=
  match script with
  | js_name => name_script
  | js_name_h1 => name_script_h1
  | js_stock => stock_script
  | js_image => image_script
  end.

(** ** The browser *)

(** The Go variables an attempt hands to the browser by pointer. *)
Record Locals := mkLocals {
  v_name : string;
  v_imageURL : string;
  v_inStock : bool;
  v_buf : string
}.

Definition zero_locals : Locals :=
  {| v_name := ""; v_imageURL := ""; v_inStock := false; v_buf := "" |}.

Inductive Dest := into_name | into_imageURL | into_inStock.

#[warnings="-register-all"]
Inductive Action :=
| network_Enable
| Navigate (u : string)
| WaitReady (sel : string)
| WaitVisible (sel : string)
| EvaluateAsDevTools (script : Script) (dest : Dest)
| FullScreenshot (quality : Z)
| Tasks (actions : list Action).

(** What the world does during one [chromedp.Run]: whether the browser can
    be started, the outcome imposed on each action in the order they are
    executed ([None] or an exhausted list lets the action succeed), the
    document a navigation yields and the picture a screenshot yields. *)
Record Site := mkSite {
  launch : option error;
  outcomes : list (option error);
  serve : string -> Page;
  png : string
}.

(** The state of a run: the document of the tab, the outcomes still to
    come, and the Go variables. *)
Record Sess := mkSess {
  doc : Page;
  pending : list (option error);
  vars : Locals
}.

(** Storing the value of a script into a Go variable of its type. *)
Definition assign (dest : Dest) (v : JSValue) (l : Locals) : result Locals :=
  match dest, v with
  | into_name, JString s =>
      Ok {| v_name := s; v_imageURL := v_imageURL l; v_inStock := v_inStock l; v_buf := v_buf l |}
  | into_imageURL, JString s =>
      Ok {| v_name := v_name l; v_imageURL := s; v_inStock := v_inStock l; v_buf := v_buf l |}
  | into_inStock, JBool b =>
      Ok {| v_name := v_name l; v_imageURL := v_imageURL l; v_inStock := b; v_buf := v_buf l |}
  | into_name, JBool _ => Err "json: cannot unmarshal bool into Go value of type string"
  | into_imageURL, JBool _ => Err "json: cannot unmarshal bool into Go value of type string"
  | into_inStock, JString _ => Err "json: cannot unmarshal string into Go value of type bool"
  end.

(** One action other than [Tasks], once the world lets it succeed. *)
Definition effect (site : Site) (a : Action) (s : Sess) : Sess * option error :=
  match a with
  | Navigate u => ({| doc := serve site u; pending := pending s; vars := vars s |}, None)
  | EvaluateAsDevTools script dest =>
      match assign dest (evaluate script (doc s)) (vars s) with
      | Ok l => ({| doc := doc s; pending := pending s; vars := l |}, None)
      | Err e => (s, Some e)
      end
  | FullScreenshot _ =>
      ({| doc := doc s; pending := pending s;
          vars := {| v_name := v_name (vars s); v_imageURL := v_imageURL (vars s);
                     v_inStock := v_inStock (vars s); v_buf := png site |} |}, None)
  | _ => (s, None)
  end.

Definition primitive (site : Site) (a : Action) (s : Sess) : Sess * option error :=
  match pending s with
  | Some e :: rest => ({| doc := doc s; pending := rest; vars := vars s |}, Some e)
  | None :: rest => effect site a {| doc := doc s; pending := rest; vars := vars s |}
  | [] => effect site a s
  end.

(** [Action.Do]; [Tasks] runs its actions in order and stops at the first
    error. *)
Fixpoint Do (site : Site) (a : Action) (s : Sess) {struct a} : Sess * option error :=
  match a with
  | Tasks actions =>
      (fix each (l : list Action) (s : Sess) {struct l} : Sess * option error :=
         match l with
         | [] => (s, None)
         | x :: rest =>
             match Do site x s with
             | (s', Some e) => (s', Some e)
             | (s', None) => each rest s'
             end
         end) actions s
  | _ => primitive site a s
  end.

(** [chromedp.Run(ctx, actions...)] on a tab showing [d]: start the browser
    if need be, then do the actions as one [Tasks]. *)
Definition run_actions (site : Site) (d : Page) (actions : list Action)
    (l : Locals) : Sess * option error :=
  match launch site with
  | Some e => ({| doc := d; pending := outcomes site; vars := l |}, Some e)
  | None => Do site (Tasks actions) {| doc := d; pending := outcomes site; vars := l |}
  end.

(** ** Contexts, events and the world *)

(** A context: its own identity and the chromedp context (the browser tab)
    it derives from, if any. *)
Record Context := mkContext {
  cid : nat;
  tab : option nat
}.

Definition Background : Context := {| cid := 0; tab := None |}.

Inductive Event :=
| Logged (msg : string)
| Slept (d : Duration)
| NewExecAllocator (c : nat) (flags : list (string * string))
| NewContext (c : nat) (parent : nat)
| WithTimeout (c : nat) (parent : nat) (d : Duration)
| Cancelled (c : nat)
| Ran (c : Context) (actions : list Action)
| Upsert (p : Product) (err : option error)
| WroteFile (filename : string) (data : string) (err : option error).

(** The state the programs act on: the database, the supply of context
    identities and the document each tab shows. *)
Record World := mkWorld {
  db : DB;
  next_ctx : nat;
  tabs : nat -> Page
}.

(** A computation returns a value, the world it leaves and the events it
    produced, oldest first. *)
Record Res (A : Type) := mkRes {
  val : A;
  world : World;
  events : list Event
}.
Arguments mkRes {A} val world events.
Arguments val {A} r.
Arguments world {A} r.
Arguments events {A} r.

Definition M (A : Type) : Type := World -> Res A.

Definition ret {A} (a : A) : M A := fun w => mkRes a w [].

Definition bind {A B} (m : M A) (k : A -> M B) : M B :=
  fun w =>
    let r1 := m w in
    let r2 := k (val r1) (world r1) in
    mkRes (val r2) (world r2) (events r1 ++ events r2).

Notation "x <- c1 ;; c2" := (bind c1 (fun x => c2))
  (at level 61, c1 at next level, right associativity).
Notation "c1 ;; c2" := (bind c1 (fun _ => c2))
  (at level 61, right associativity).

Definition emit (e : Event) : M unit := fun w => mkRes tt w [e].

Definition fresh : M nat := fun w =>
  mkRes (next_ctx w) {| db := db w; next_ctx := S (next_ctx w); tabs := tabs w |} [].

Definition set_tab (c : nat) (d : Page) : M unit := fun w =>
  mkRes tt {| db := db w; next_ctx := next_ctx w;
              tabs := fun c' => if Nat.eqb c' c then d else tabs w c' |} [].

Definition log_Printf (msg : string) : M unit := emit (Logged msg).

Definition time_Sleep (d : Duration) : M unit := emit (Slept d).

(** [rand.Intn(n)] on the raw value the source yields: a number in [0, n). *)
Definition rand_Intn (raw : Z) (n : Z) : Z := raw mod n.

Definition chromedp_NewExecAllocator (parent : Context)
    (flags : list (string * string)) : M Context :=
  c <- fresh ;;
  emit (NewExecAllocator c flags) ;;
  ret {| cid := c; tab := None |}.

(** A new chromedp context is a new tab of a browser of its own, blank. *)
Definition chromedp_NewContext (parent : Context) : M Context :=
  c <- fresh ;;
  emit (NewContext c (cid parent)) ;;
  set_tab c about_blank ;;
  ret {| cid := c; tab := Some c |}.

Definition context_WithTimeout (parent : Context) (d : Duration) : M Context :=
  c <- fresh ;;
  emit (WithTimeout c (cid parent) d) ;;
  ret {| cid := c; tab := tab parent |}.

Definition cancel (c : Context) : M unit := emit (Cancelled (cid c)).

(** [chromedp.Run]: a context that derives from no chromedp context is
    refused; otherwise the actions run on the tab of the context, which
    keeps the document they leave. *)
Definition chromedp_Run (c : Context) (site : Site) (actions : list Action)
    (l : Locals) : M (Locals * option error) :=
  emit (Ran c actions) ;;
  match tab c with
  | None => ret (l, Some "invalid context")
  | Some t =>
      fun w =>
        let r := run_actions site (tabs w t) actions l in
        (set_tab t (doc (fst r)) ;; ret (vars (fst r), snd r)) w
  end.

Definition os_WriteFile (filename data : string) (err : option error) : M (option error) :=
  emit (WroteFile filename data err) ;; ret err.

(** The call of [updateProduct] on the database of the world. *)
Definition store (product : Product) : M (option error) := fun w =>
  let r := updateProduct (db w) product in
  mkRes (snd r) {| db := fst r; next_ctx := next_ctx w; tabs := tabs w |}
        [Upsert product (snd r)].

(** The literal [Product{URL: url, Name: name, InStock: inStock, ImageURL:
    imageURL, UpdatedAt: time.Now()}], the same in both programs: [ID] and
    [Price] are not given and take their zero values. *)
Definition product_literal (url : string) (l : Locals) (now : Time) : Product :=
  {| ID := 0; URL := url; Name := v_name l; InStock := v_inStock l;
     Price := float64_zero; ImageURL := v_imageURL l; UpdatedAt := now |}.

(** What [main] meets before its loop: loading [.env], opening the log
    file, opening the database. *)
Record Start := mkStart {
  dotenv : option error;
  logfile : option error;
  sql_open : option error
}.

(** The process after a number of loop iterations: it has exited, or it is
    still in its loop; in both cases with the world and the events so far. *)
Inductive Proc :=
| Exited (code : Z) (r : Res unit)
| Running (r : Res unit).

(** [log.Fatal]: print, then [os.Exit(1)]. *)
Definition log_Fatal (msg : string) (w : World) : Proc :=
  Exited 1 (log_Printf msg w).

Definition user_agent : string :=
  "Mozilla/5.0 (Windows NT 10.0; Win64; x64) AppleWebKit/537.36 (KHTML, like Gecko) Chrome/121.0.0.0 Safari/537.36".

(** ** The urls.json scraper *)

Module Scraper.

(** What the world holds for one attempt: the raw random values of the
    two delays, the site as the attempt's browser meets it, the site as
    the screenshot browser meets it, the clock at the two [time.Now()]
    calls and the outcome of writing the screenshot. *)
Record Attempt := mkAttempt {
  rnd_pre : Z;
  site : Site;
  shot : Site;
  shot_at : Time;
  write_err : option error;
  scraped_at : Time;
  rnd_post : Z
}.

Record Cycle := mkCycle {
  ReadFile : string -> result string;
  Unmarshal : string -> result (list string);
  attempts : nat -> Attempt
}.

Definition main_opts : list (string * string) :=
  [ ("UserAgent", user_agent); ("DisableGPU", ""); ("NoDefaultBrowserCheck", "");
    ("NoFirstRun", ""); ("disable-blink-features", "AutomationControlled");
    ("Headless", ""); ("NoSandbox", "");
    ("blink-settings", "scriptEnabled=false, imagesEnabled=false") ].

Definition opts : list (string * string) :=
  [ ("UserAgent", user_agent); ("DisableGPU", ""); ("NoDefaultBrowserCheck", "");
    ("NoFirstRun", ""); ("disable-blink-features", "AutomationControlled");
    ("Headless", ""); ("NoSandbox", "");
    ("blink-settings", "scriptEnabled=false, imagesEnabled=false");
    ("ignore-certificate-errors", "true"); ("disable-http2", "true");
    ("disable-extensions", "true") ].

Definition wait_selector : string :=
  sel_productName ++ ", " ++ sel_productTitle ++ ", " ++ sel_h1.

Definition page_actions (url : string) : list Action :=
  [ network_Enable;
    Navigate url;
    WaitReady "body";
    WaitVisible wait_selector;
    EvaluateAsDevTools js_name into_name;
    EvaluateAsDevTools js_stock into_inStock ].

(** The body of [if err != nil] up to the release of the second browser. *)
Definition capture (env : Attempt) (url : string) (l : Locals) : M unit :=
  allocCtx <- chromedp_NewExecAllocator Background opts ;;
  tbCtx0 <- chromedp_NewContext allocCtx ;;
  tbCtx <- context_WithTimeout tbCtx0 (10 * Second) ;;
  r <- chromedp_Run tbCtx (shot env) [FullScreenshot 90] l ;;
  match snd r with
  | None =>
      let filename := "screenshots/screenshot_" ++ itoa (shot_at env) ++ ".png" in
      errWrite <- os_WriteFile filename (v_buf (fst r)) (write_err env) ;;
      match errWrite with
      | None => log_Printf ("Saved screenshot for " ++ url ++ " as " ++ filename)
      | Some e => log_Printf ("Failed to write screenshot: " ++ e)
      end
  | Some _ => ret tt
  end ;;
  cancel tbCtx ;;
  cancel tbCtx0 ;;
  cancel allocCtx.

(** The part of the loop body after a run without error. *)
Definition persist (env : Attempt) (url : string) (l : Locals) : M unit :=
  log_Printf ("Product: " ++ v_name l) ;;
  log_Printf ("In Stock: " ++ btoa (v_inStock l)) ;;
  let product := product_literal url l (scraped_at env) in
  err <- store product ;;
  match err with
  | Some e => log_Printf ("Database error: " ++ e)
  | None => log_Printf "Successfully updated database"
  end ;;
  time_Sleep ((5 + rand_Intn (rnd_post env) 10) * Second).

(** One iteration of [for _, url := range urls]. *)
Definition scrape_url (env : Attempt) (url : string) : M unit :=
  time_Sleep ((2 + rand_Intn (rnd_pre env) 5) * Second) ;;
  allocCtx <- chromedp_NewExecAllocator Background opts ;;
  tbCtx0 <- chromedp_NewContext allocCtx ;;
  tbCtx <- context_WithTimeout tbCtx0 (60 * Second) ;;
  log_Printf ("Navigating to: " ++ url) ;;
  r <- chromedp_Run tbCtx (site env) (page_actions url) zero_locals ;;
  cancel tbCtx ;;
  cancel tbCtx0 ;;
  cancel allocCtx ;;
  match snd r with
  | Some e =>
      capture env url (fst r) ;;
      log_Printf ("Failed to load or scrape page " ++ url ++ ": " ++ e)
  | None => persist env url (fst r)
  end.

Fixpoint scrape_urls (attempts : nat -> Attempt) (i : nat) (urls : list string) : M unit :=
  match urls with
  | [] => ret tt
  | url :: rest => scrape_url (attempts i) url ;; scrape_urls attempts (S i) rest
  end.

(** [scrapeProducts]; its [ctx] parameter is not used. *)
Definition scrapeProducts (env : Cycle) (ctx : Context) : M (option error) :=
  match ReadFile env "urls.json" with
  | Err e => log_Printf ("Error reading urls.json: " ++ e) ;; ret (Some e)
  | Ok data =>
      match Unmarshal env data with
      | Err e => log_Printf ("Error parsing urls.json: " ++ e) ;; ret (Some e)
      | Ok urls =>
          log_Printf ("Scraping " ++ itoa (Z.of_nat (List.length urls)) ++ " products") ;;
          scrape_urls (attempts env) 0 urls ;;
          ret None
      end
  end.

(** The body of the [for] of [main]. *)
Definition iteration (env : Cycle) (ctx : Context) : M unit :=
  err <- scrapeProducts env ctx ;;
  match err with
  | Some e => log_Printf ("Error in scrape cycle: " ++ e)
  | None => ret tt
  end.

(** [n] iterations of the loop, the [k]th cycle of the process first. *)
Fixpoint loop (n : nat) (cycles : nat -> Cycle) (k : nat) (ctx : Context) : M unit :=
  match n with
  | O => ret tt
  | S n' => iteration (cycles k) ctx ;; loop n' cycles (S k) ctx
  end.

(** [main], observed after [n] iterations of its loop.  The read API
    started by [go startAPI(db)] only reads the table and is left out. *)
Definition main (start : Start) (cycles : nat -> Cycle) (n : nat) (w : World) : Proc :=
  match dotenv start with
  | Some _ => log_Fatal "Error loading .env file" w
  | None =>
      match logfile start with
      | Some e => log_Fatal ("error opening file: " ++ e) w
      | None =>
          match sql_open start with
          | Some e => log_Fatal e w
          | None =>
              Running ((allocCtx <- chromedp_NewExecAllocator Background main_opts ;;
                        ctx <- chromedp_NewContext allocCtx ;;
                        loop n cycles 0 ctx) w)
          end
      end
  end.

End Scraper.

(** ** The static-list scraper of [main/main.go] *)

Module StaticScraper.

(** What the world holds for one attempt: the site during the first run
    (load) and during the second (details), and the clock at
    [time.Now()]. *)
Record Attempt := mkAttempt {
  load : Site;
  details : Site;
  scraped_at : Time
}.

Definition main_opts : list (string * string) :=
  [ ("UserAgent", user_agent); ("DisableGPU", ""); ("NoDefaultBrowserCheck", "");
    ("NoFirstRun", ""); ("Headless", ""); ("NoSandbox", "");
    ("blink-settings", "scriptEnabled=false") ].

Definition urls : list string :=
  [ "https://www.costco.com/1-oz-gold-bar-rand-refinery-new-in-assay.product.4000202779.html" ].

Definition load_actions (url : string) : list Action :=
  [ network_Enable; Navigate url; WaitVisible "h1" ].

Definition detail_actions : list Action :=
  [ Tasks [ EvaluateAsDevTools js_name_h1 into_name;
            EvaluateAsDevTools js_stock into_inStock;
            WaitVisible "#heroImage_zoom";
            EvaluateAsDevTools js_image into_imageURL ] ].

Definition persist (env : Attempt) (url : string) (l : Locals) : M unit :=
  log_Printf ("Product: " ++ v_name l) ;;
  log_Printf ("In Stock: " ++ btoa (v_inStock l)) ;;
  log_Printf ("Image URL: " ++ v_imageURL l) ;;
  let product := product_literal url l (scraped_at env) in
  err <- store product ;;
  match err with
  | Some e => log_Printf ("Database error: " ++ e)
  | None => log_Printf "Successfully updated database"
  end ;;
  time_Sleep (10 * Second).

(** One iteration of [for _, url := range urls], on the context of [main]. *)
Definition scrape_url (ctx : Context) (env : Attempt) (url : string) : M unit :=
  r1 <- chromedp_Run ctx (load env) (load_actions url) zero_locals ;;
  match snd r1 with
  | Some e => log_Printf ("Failed to load page: " ++ e)
  | None =>
      log_Printf ("Loaded page: " ++ url) ;;
      r2 <- chromedp_Run ctx (details env) detail_actions zero_locals ;;
      match snd r2 with
      | Some e => log_Printf ("Failed to scrape details: " ++ e)
      | None => persist env url (fst r2)
      end
  end.

Fixpoint scrape_urls (ctx : Context) (attempts : nat -> Attempt) (i : nat)
    (l : list string) : M unit :=
  match l with
  | [] => ret tt
  | url :: rest => scrape_url ctx (attempts i) url ;; scrape_urls ctx attempts (S i) rest
  end.

Definition scrapeProducts (attempts : nat -> Attempt) (ctx : Context) : M (option error) :=
  log_Printf ("Scraping " ++ itoa (Z.of_nat (List.length urls)) ++ " products") ;;
  scrape_urls ctx attempts 0 urls ;;
  ret None.

Definition iteration (attempts : nat -> Attempt) (ctx : Context) : M unit :=
  err <- scrapeProducts attempts ctx ;;
  match err with
  | Some e => log_Printf ("Error in scrape cycle: " ++ e)
  | None => ret tt
  end ;;
  time_Sleep (5 * Minute).

Fixpoint loop (n : nat) (cycles : nat -> nat -> Attempt) (k : nat) (ctx : Context) : M unit :=
  match n with
  | O => ret tt
  | S n' => iteration (cycles k) ctx ;; loop n' cycles (S k) ctx
  end.

Definition main (start : Start) (cycles : nat -> nat -> Attempt) (n : nat) (w : World) : Proc :=
  match dotenv start with
  | Some _ => log_Fatal "Error loading .env file" w
  | None =>
      match logfile start with
      | Some e => log_Fatal ("error opening file: " ++ e) w
      | None =>
          match sql_open start with
          | Some e => log_Fatal e w
          | None =>
              Running ((allocCtx <- chromedp_NewExecAllocator Background main_opts ;;
                        ctx <- chromedp_NewContext allocCtx ;;
                        loop n cycles 0 ctx) w)
          end
      end
  end.

End StaticScraper.

(** ** Reading a trace *)

(** The products handed to [updateProduct], in order. *)
Definition upserted (t : list Event) : list Product :=
  flat_map (fun e => match e with Upsert p _ => [p] | _ => [] end) t.

(** The same with the error each call returned. *)
Definition upsert_calls (t : list Event) : list (Product * option error) :=
  flat_map (fun e => match e with Upsert p err => [(p, err)] | _ => [] end) t.

Definition slept (t : list Event) : list Duration :=
  flat_map (fun e => match e with Slept d => [d] | _ => [] end) t.

Definition logged (t : list Event) : list string :=
  flat_map (fun e => match e with Logged m => [m] | _ => [] end) t.

(** The tab each [chromedp.Run] acted on, in order. *)
Definition ran_tabs (t : list Event) : list (option nat) :=
  flat_map (fun e => match e with Ran c _ => [tab c] | _ => [] end) t.

(** The chromedp contexts created, in order. *)
Definition created (t : list Event) : list nat :=
  flat_map (fun e => match e with NewContext c _ => [c] | _ => [] end) t.

(** The tabs are pairwise distinct and belong to chromedp contexts with an
    identity from [lo] (included) to [hi] (excluded). *)
Definition fresh_between (lo hi : nat) (l : list (option nat)) : Prop :=
  NoDup l /\ Forall (fun o => exists x, o = Some x /\ (lo <= x < hi)%nat) l.

(** A computation whose runs all act on tabs it has created itself, each
    tab used by one run only. *)
Definition runs_on_fresh_tabs {A} (m : M A) : Prop :=
  forall w : World,
    (next_ctx w <= next_ctx (world (m w)))%nat /\
    fresh_between (next_ctx w) (next_ctx (world (m w))) (ran_tabs (events (m w))).

(** The events of a diagnostic capture: a screenshot run, a file written. *)
Definition is_capture (e : Event) : bool :=
  match e with
  | Ran _ [FullScreenshot _] => true
  | WroteFile _ _ _ => true
  | _ => false
  end.

(** The outcome of an attempt, as the specification names it. *)
Inductive Outcome :=
| Success (name : string) (in_stock : bool) (image_url : string)
| Failure (reason : error).

Definition outcome_of (r : Sess * option error) : Outcome :=
  match snd r with
  | Some e => Failure e
  | None => Success (v_name (vars (fst r))) (v_inStock (vars (fst r)))
              (v_imageURL (vars (fst r)))
  end.

(** The first error the world imposes on a run of [n] actions. *)
Fixpoint first_fault (n : nat) (l : list (option error)) : option error :=
  match n, l with
  | S n', Some e :: _ => Some e
  | S n', None :: rest => first_fault n' rest
  | _, _ => None
  end.

Definition run_fault (n : nat) (s : Site) : option error :=
  match launch s with
  | Some e => Some e
  | None => first_fault n (outcomes s)
  end.

Definition string_of (v : JSValue) : string :=
  match v with
  | JString s => s
  | JBool b => btoa b
  end.

Definition bool_of (v : JSValue) : bool :=
  match v with
  | JBool b => b
  | JString _ => false
  end.

Module ScraperOutcome.
Import Scraper.

(** The run of an attempt of the urls.json scraper: its browser is new,
    so the tab is blank when the run starts. *)
Definition attempt_run (env : Attempt) (url : string) : Sess * option error :=
  run_actions (site env) about_blank (page_actions url) zero_locals.

Definition outcome (env : Attempt) (url : string) : Outcome :=
  outcome_of (attempt_run env url).

(** The product a successful attempt hands to [updateProduct]. *)
Definition scraped (env : Attempt) (url : string) : Product :=
  product_literal url (vars (fst (attempt_run env url))) (scraped_at env).
End ScraperOutcome.

Module StaticOutcome.
Import StaticScraper.

(** The two runs of an attempt of the static-list scraper, on the tab of
    the context of [main], showing [d] when the attempt starts. *)
Definition load_run (env : Attempt) (url : string) (d : Page) : Sess * option error :=
  run_actions (load env) d (load_actions url) zero_locals.

Definition detail_run (env : Attempt) (url : string) (d : Page) : Sess * option error :=
  run_actions (details env) (doc (fst (load_run env url d))) detail_actions zero_locals.

Definition outcome (env : Attempt) (url : string) (d : Page) : Outcome :=
  match snd (load_run env url d) with
  | Some e => Failure e
  | None => outcome_of (detail_run env url d)
  end.

Definition scraped (env : Attempt) (url : string) (d : Page) : Product :=
  product_literal url (vars (fst (detail_run env url d))) (scraped_at env).
End StaticOutcome.

(** ** Sample worlds *)

Module Sample.

Definition w0 : World :=
  {| db := {| products := empty_table; faults := [] |};
     next_ctx := 1;
     tabs := fun _ => about_blank |}.

Definition urlA : string := "https://shop.example/a".
Definition urlB : string := "https://shop.example/b".

(** A product page with a title and an image, no out-of-stock marker. *)
Definition page_widget : Page := fun sel =>
  if String.eqb sel sel_h1 then Some {| textContent := "  Widget "; src := "" |}
  else if String.eqb sel (nth 0 image_selectors "")
  then Some {| textContent := ""; src := "https://shop.example/widget.png" |}
  else None.

(** The same page with the overlay that marks it out of stock. *)
Definition page_sold_out : Page := fun sel =>
  if String.eqb sel ".oos-overlay" then Some {| textContent := "Sold out"; src := "" |}
  else page_widget sel.

Definition site_of (p : Page) (o : list (option error)) : Site :=
  {| launch := None; outcomes := o; serve := fun _ => p; png := "PNG" |}.

(** An attempt that goes through. *)
Definition attempt_ok : Scraper.Attempt :=
  {| Scraper.rnd_pre := 7; Scraper.site := site_of page_widget [];
     Scraper.shot := site_of about_blank []; Scraper.shot_at := 1700000000000000000;
     Scraper.write_err := None; Scraper.scraped_at := 1700000000000000001;
     Scraper.rnd_post := 13 |}.

Definition attempt_sold_out : Scraper.Attempt :=
  {| Scraper.rnd_pre := 7; Scraper.site := site_of page_sold_out [];
     Scraper.shot := site_of about_blank []; Scraper.shot_at := 1700000000000000000;
     Scraper.write_err := None; Scraper.scraped_at := 1700000000000000002;
     Scraper.rnd_post := 13 |}.

(** The product element never becomes visible: the fourth action times
    out. *)
Definition attempt_timeout : Scraper.Attempt :=
  {| Scraper.rnd_pre := 7;
     Scraper.site := site_of page_widget [None; None; None; Some "context deadline exceeded"];
     Scraper.shot := site_of about_blank []; Scraper.shot_at := 1700000000000000000;
     Scraper.write_err := None; Scraper.scraped_at := 1700000000000000001;
     Scraper.rnd_post := 13 |}.

(** Navigation and both waits go through; evaluating the name fails. *)
Definition attempt_eval_error : Scraper.Attempt :=
  {| Scraper.rnd_pre := 7;
     Scraper.site := site_of page_widget
                       [None; None; None; None; Some "exception in script"];
     Scraper.shot := site_of about_blank [Some "context deadline exceeded"];
     Scraper.shot_at := 1700000000000000000;
     Scraper.write_err := None; Scraper.scraped_at := 1700000000000000001;
     Scraper.rnd_post := 13 |}.

Definition cycle_AB : Scraper.Cycle :=
  {| Scraper.ReadFile := fun _ => Ok "[...]";
     Scraper.Unmarshal := fun _ => Ok [urlA; urlB];
     Scraper.attempts := fun i => match i with O => attempt_ok | _ => attempt_timeout end |}.

Definition cycle_missing : Scraper.Cycle :=
  {| Scraper.ReadFile := fun _ => Err "open urls.json: no such file or directory";
     Scraper.Unmarshal := fun _ => Ok [];
     Scraper.attempts := fun _ => attempt_ok |}.

Definition start_ok : Start :=
  {| dotenv := None; logfile := None; sql_open := None |}.

Definition static_ok : StaticScraper.Attempt :=
  {| StaticScraper.load := site_of page_widget [];
     StaticScraper.details := site_of page_widget [];
     StaticScraper.scraped_at := 1700000000000000001 |}.

Definition static_eval_error : StaticScraper.Attempt :=
  {| StaticScraper.load := site_of page_widget [];
     StaticScraper.details := site_of page_widget [None; Some "exception in script"];
     StaticScraper.scraped_at := 1700000000000000001 |}.

(** The context [main] of the static-list scraper creates in [w0]. *)
Definition main_ctx : Context := {| cid := 2; tab := Some 2%nat |}.

(** A world that already stores a priced record for [urlA]. *)
Definition w_priced : World :=
  {| db := {| products :=
                {| rows := [ {| id := 41; url := urlA; name := "Widget (old)";
                                in_stock := false;
                                price := S754_finite false 5 0;
                                image_url := "https://shop.example/old.png";
                                updated_at := 1600000000000000000 |} ];
                   id_seq := 41 |};
              faults := [] |};
     next_ctx := 1;
     tabs := fun _ => about_blank |}.

Definition product_v (n : string) (s : bool) (p : float64) (t : Time) : Product :=
  {| ID := 0; URL := urlA; Name := n; InStock := s; Price := p; ImageURL := "";
     UpdatedAt := t |}.

End Sample.

(** ** More ways to read a trace *)

(** The contexts opened (allocator, chromedp context, timeout context) and
    the contexts cancelled, in order. *)
Definition opened (t : list Event) : list nat :=
  flat_map (fun e => match e with
                     | NewExecAllocator c _ => [c]
                     | NewContext c _ => [c]
                     | WithTimeout c _ _ => [c]
                     | _ => []
                     end) t.

Definition cancelled (t : list Event) : list nat :=
  flat_map (fun e => match e with Cancelled c => [c] | _ => [] end) t.

(** The timeout contexts made, each with its deadline. *)
Definition timeouts (t : list Event) : list (nat * Duration) :=
  flat_map (fun e => match e with WithTimeout c _ d => [(c, d)] | _ => [] end) t.

(** The context and the actions of each run. *)
Definition runs (t : list Event) : list (nat * list Action) :=
  flat_map (fun e => match e with Ran c a => [(cid c, a)] | _ => [] end) t.

Definition is_log (e : Event) : bool :=
  match e with
  | Logged _ => true
  | _ => false
  end.

(** What identifies a row: its id and its url. *)
Definition row_key (r : Row) : Z * string := (id r, url r).

(** [t'] still has every row of [t], in place, with its id and url. *)
Definition extends (t t' : Table) : Prop :=
  exists more, map row_key (rows t') = (map row_key (rows t) ++ more)%list.

(** A computation that moves the database along a relation. *)
Definition db_steps {A} (R : DB -> DB -> Prop) (m : M A) : Prop :=
  forall w : World, R (db w) (db (world (m w))).

(** The urls of a list whose attempt returns no error, in order, the first
    url being attempt [i] of the cycle. *)
Fixpoint succeeded (attempts : nat -> Scraper.Attempt) (i : nat) (urls : list string)
    : list string :=
  match urls with
  | [] => []
  | u :: rest =>
      match snd (ScraperOutcome.attempt_run (attempts i) u) with
      | None => u :: succeeded attempts (S i) rest
      | Some _ => succeeded attempts (S i) rest
      end
  end.

(** A cycle with nothing to scrape: the list cannot be loaded, or it is
    empty. *)
Definition idle (env : Scraper.Cycle) : Prop :=
  match Scraper.ReadFile env "urls.json" with
  | Err _ => True
  | Ok data =>
      match Scraper.Unmarshal env data with
      | Err _ => True
      | Ok urls => urls = []
      end
  end.

(** ** The read API *)

Module API.

Record Request := mkRequest {
  Method : string
}.

(** An [http.ResponseWriter]: the header map, the status and the header as
    they were sent (nothing is sent before [WriteHeader] or the first
    [Write]), and the body written. *)
Record Writer := mkWriter {
  header : list (string * string);
  sent : option (Z * list (string * string));
  body : string
}.

Definition new_writer : Writer := {| header := []; sent := None; body := "" |}.

(** [w.Header().Set(k, v)]. *)
Definition Header_Set (k v : string) (w : Writer) : Writer :=
  {| header := (filter (fun kv => negb (String.eqb (fst kv) k)) (header w) ++ [(k, v)])%list;
     sent := sent w;
     body := body w |}.

(** [w.WriteHeader(code)]; a second call changes nothing. *)
Definition WriteHeader (code : Z) (w : Writer) : Writer :=
  match sent w with
  | Some _ => w
  | None => {| header := header w; sent := Some (code, header w); body := body w |}
  end.

(** [w.Write(data)], which sends status 200 first if nothing was sent. *)
Definition Write (data : string) (w : Writer) : Writer :=
  let w' := WriteHeader 200 w in
  {| header := header w'; sent := sent w'; body := body w' ++ data |}.

Definition newline : string := String (byte_of 10) EmptyString.

(** [http.Error(w, msg, code)]. *)
Definition http_Error (msg : string) (code : Z) (w : Writer) : Writer :=
  Write (msg ++ newline)
    (WriteHeader code
       (Header_Set "X-Content-Type-Options" "nosniff"
          (Header_Set "Content-Type" "text/plain; charset=utf-8" w))).

(** What the client receives once the handler has returned. *)
Record Response := mkResponse {
  status : Z;
  headers : list (string * string);
  payload : string
}.

Definition finish (w : Writer) : Response :=
  match sent w with
  | Some (code, h) => {| status := code; headers := h; payload := body w |}
  | None => {| status := 200; headers := header w; payload := body w |}
  end.

(** What the world does during one request: whether the query fails, the
    rows the cursor yields for the rows of the table (in the order of the
    database, and cut short when the stream breaks, which the handler does
    not look at), the outcome of each [rows.Scan] and the JSON encoder. *)
Record Env := mkEnv {
  query_err : option error;
  result_set : list Row -> list Row;
  scan_errs : list (option error);
  Encode : option (list Product) -> result string
}.

(** [rows.Scan(&p.ID, &p.URL, &p.Name, &p.InStock, &p.Price, &p.ImageURL,
    &p.UpdatedAt)]. *)
Definition Scan (r : Row) : Product :=
  {| ID := id r; URL := url r; Name := name r; InStock := in_stock r;
     Price := price r; ImageURL := image_url r; UpdatedAt := updated_at r |}.

(** [append] on a slice that may be nil. *)
Definition append (s : option (list Product)) (p : Product) : option (list Product) :=
  match s with
  | None => Some [p]
  | Some l => Some (l ++ [p])%list
  end.

(** The [for rows.Next()] loop. *)
Fixpoint scan_rows (rs : list Row) (errs : list (option error))
    (products : option (list Product)) : result (option (list Product)) :=
  match rs with
  | [] => Ok products
  | r :: rest =>
      match errs with
      | Some e :: _ => Err e
      | None :: errs' => scan_rows rest errs' (append products (Scan r))
      | [] => scan_rows rest [] (append products (Scan r))
      end
  end.

(** The handler registered for [/api/products]. *)
Definition products_handler (env : Env) (t : Table) (r : Request) (w : Writer) : Writer :=
  if negb (String.eqb (Method r) "GET")
  then http_Error "Method not allowed" 405 w
  else
    match query_err env with
    | Some e => http_Error e 500 w
    | None =>
        match scan_rows (result_set env (rows t)) (scan_errs env) None with
        | Err e => http_Error e 500 w
        | Ok products =>
            let w1 := Header_Set "Content-Type" "application/json" w in
            match Encode env products with
            | Ok text => Write text w1
            | Err _ => w1
            end
        end
    end.

Definition corsMiddleware (next : Request -> Writer -> Writer) (r : Request)
    (w : Writer) : Writer :=
  let w1 := Header_Set "Access-Control-Allow-Origin" "*" w in
  let w2 := Header_Set "Access-Control-Allow-Methods" "GET, OPTIONS" w1 in
  let w3 := Header_Set "Access-Control-Allow-Headers" "Content-Type" w2 in
  if String.eqb (Method r) "OPTIONS"
  then WriteHeader 200 w3
  else next r w3.

(** One request to [/api/products]. *)
Definition serve (env : Env) (t : Table) (r : Request) : Response :=
  finish (corsMiddleware (products_handler env t) r new_writer).

Definition cors_headers : list (string * string) :=
  [ ("Access-Control-Allow-Origin", "*");
    ("Access-Control-Allow-Methods", "GET, OPTIONS");
    ("Access-Control-Allow-Headers", "Content-Type") ].

(** A database that answers, yields every row once, in some order, and
    scans each. *)
Definition healthy (env : Env) : Prop :=
  query_err env = None /\
  (forall l, Permutation (result_set env l) l) /\
  Forall (fun o => o = None) (scan_errs env).

(** The slice the loop builds from the products scanned: it stays nil when
    there is none. *)
Definition slice_of (l : list Product) : option (list Product) :=
  match l with
  | [] => None
  | _ => Some l
  end.

(** What the handler writes for a slice: its encoding, or nothing when the
    encoder returns an error. *)
Definition encoded (env : Env) (s : option (list Product)) : string :=
  match Encode env s with
  | Ok text => text
  | Err _ => ""
  end.

Definition text_headers : list (string * string) :=
  [ ("Content-Type", "text/plain; charset=utf-8");
    ("X-Content-Type-Options", "nosniff") ].

End API.

(** ** More sample worlds *)

Module Sample2.

(** An encoder that only counts the products. *)
Definition count_encoder (s : option (list Product)) : result string :=
  match s with
  | None => Ok "null"
  | Some l => Ok (itoa (Z.of_nat (List.length l)))
  end.

Definition api_ok : API.Env :=
  {| API.query_err := None; API.result_set := fun l => l; API.scan_errs := [];
     API.Encode := count_encoder |}.

Definition api_down : API.Env :=
  {| API.query_err := Some "dial tcp: connection refused";
     API.result_set := fun l => l; API.scan_errs := [];
     API.Encode := count_encoder |}.

Definition api_bad_row : API.Env :=
  {| API.query_err := None; API.result_set := fun l => l;
     API.scan_errs := [Some "sql: Scan error on column index 2"];
     API.Encode := count_encoder |}.

Definition api_no_json : API.Env :=
  {| API.query_err := None; API.result_set := fun l => l; API.scan_errs := [];
     API.Encode := fun _ => Err "json: unsupported value: NaN" |}.

(** A world whose database refuses the next statement. *)
Definition w_db_down : World :=
  {| db := {| products := products (db Sample.w_priced);
              faults := [Some "pq: connection refused"] |};
     next_ctx := 1;
     tabs := fun _ => about_blank |}.

Definition cycle_empty : Scraper.Cycle :=
  {| Scraper.ReadFile := fun _ => Ok "[]";
     Scraper.Unmarshal := fun _ => Ok [];
     Scraper.attempts := fun _ => Sample.attempt_ok |}.

Definition start_no_env : Start :=
  {| dotenv := Some "open .env: no such file or directory"; logfile := None;
     sql_open := None |}.

End Sample2.

(** * Properties *)

(** ** The store *)

Section StoreFacts.
Variables (a1 a2 : string) (a3 : bool) (a4 : float64) (a5 : string) (a6 : Time).

Lemma existsb_conflict_select (u : string) (l : list Row) :
  existsb (conflict u) l = false <-> filter (conflict u) l = [].
Proof.
  induction l as [|r l IH]; simpl.
  - tauto.
  - destruct (conflict u r); simpl.
    + split; discriminate.
    + exact IH.
Qed.

Lemma conflict_do_update (u : string) (r : Row) :
  conflict u (do_update a2 a3 a4 a5 a6 r) = conflict u r.
Proof. reflexivity. Qed.

Lemma filter_update_same (l : list Row) :
  filter (conflict a1)
    (map (fun r => if conflict a1 r then do_update a2 a3 a4 a5 a6 r else r) l)
  = map (do_update a2 a3 a4 a5 a6) (filter (conflict a1) l).
Proof.
  induction l as [|r l IH]; simpl; [reflexivity|].
  destruct (conflict a1 r) eqn:E; simpl.
  - rewrite conflict_do_update, E. simpl. now rewrite IH.
  - rewrite E. exact IH.
Qed.

Lemma filter_update_other (u : string) (l : list Row) :
  u <> a1 ->
  filter (conflict u)
    (map (fun r => if conflict a1 r then do_update a2 a3 a4 a5 a6 r else r) l)
  = filter (conflict u) l.
Proof.
  intros Hne. induction l as [|r l IH]; simpl; [reflexivity|].
  destruct (conflict a1 r) eqn:E.
  - rewrite conflict_do_update.
    assert (conflict u r = false) as ->.
    { unfold conflict in *. apply String.eqb_eq in E. apply String.eqb_neq. congruence. }
    exact IH.
  - destruct (conflict u r); [f_equal|]; exact IH.
Qed.

(** A statement for a url already present rewrites its rows in place. *)
Lemma select_upsert_present (t : Table) :
  select_url a1 t <> [] ->
  select_url a1 (exec_upsert a1 a2 a3 a4 a5 a6 t)
  = map (do_update a2 a3 a4 a5 a6) (select_url a1 t).
Proof.
  intros Hne. unfold select_url, exec_upsert.
  destruct (existsb (conflict a1) (rows t)) eqn:E.
  - simpl. apply filter_update_same.
  - apply existsb_conflict_select in E. contradiction.
Qed.

(** A statement for a new url appends one row. *)
Lemma select_upsert_absent (t : Table) :
  select_url a1 t = [] ->
  select_url a1 (exec_upsert a1 a2 a3 a4 a5 a6 t)
  = [inserted a1 a2 a3 a4 a5 a6 (id_seq t + 1)].
Proof.
  intros He. unfold select_url, exec_upsert in *.
  destruct (existsb (conflict a1) (rows t)) eqn:E.
  - apply Bool.not_false_iff_true in E. exfalso. apply E.
    now apply existsb_conflict_select.
  - simpl. rewrite filter_app, He. simpl.
    unfold conflict at 1. simpl. now rewrite String.eqb_refl.
Qed.

(** Rows of another url are not touched. *)
Lemma select_upsert_other (u : string) (t : Table) :
  u <> a1 ->
  select_url u (exec_upsert a1 a2 a3 a4 a5 a6 t) = select_url u t.
Proof.
  intros Hne. unfold select_url, exec_upsert.
  destruct (existsb (conflict a1) (rows t)); simpl.
  - now apply filter_update_other.
  - rewrite filter_app. simpl. unfold conflict at 2. simpl.
    assert (String.eqb a1 u = false) as ->
      by (apply String.eqb_neq; congruence).
    apply app_nil_r.
Qed.

Lemma map_url_update (l : list Row) :
  map url (map (fun r => if conflict a1 r then do_update a2 a3 a4 a5 a6 r else r) l)
  = map url l.
Proof.
  induction l as [|r l IH]; simpl; [reflexivity|].
  rewrite IH. now destruct (conflict a1 r).
Qed.

(** The statement keeps the unique constraint. *)
Lemma exec_upsert_unique (t : Table) :
  unique_url t -> unique_url (exec_upsert a1 a2 a3 a4 a5 a6 t).
Proof.
  unfold unique_url, exec_upsert. intros Hu.
  destruct (existsb (conflict a1) (rows t)) eqn:E; simpl.
  - now rewrite map_url_update.
  - rewrite map_app. simpl.
    apply NoDup_rev in Hu. rewrite <- (rev_involutive (map url (rows t) ++ [a1])).
    apply NoDup_rev. rewrite rev_app_distr. simpl. constructor; [|exact Hu].
    intros Hin. apply in_rev in Hin. apply in_map_iff in Hin.
    destruct Hin as [r [Hr Hin]].
    assert (existsb (conflict a1) (rows t) = true) as Hex.
    { apply existsb_exists. exists r. split; [exact Hin|].
      unfold conflict. now apply String.eqb_eq. }
    congruence.
Qed.
End StoreFacts.

(** Under the unique constraint a url selects no row or one row. *)
Lemma unique_select (u : string) (t : Table) :
  unique_url t -> select_url u t = [] \/ exists r, select_url u t = [r].
Proof.
  unfold unique_url, select_url. induction (rows t) as [|r l IH]; simpl; intros Hu.
  - now left.
  - inversion Hu as [|x xs Hnotin Hl]; subst.
    destruct (conflict u r) eqn:E.
    + right. exists r. f_equal.
      destruct (filter (conflict u) l) as [|r' l'] eqn:F; [reflexivity|].
      exfalso. apply Hnotin.
      assert (In r' (filter (conflict u) l)) as Hin by (rewrite F; now left).
      apply filter_In in Hin. destruct Hin as [Hin Hc].
      unfold conflict in *. apply String.eqb_eq in E, Hc.
      apply in_map_iff. exists r'. split; [congruence|exact Hin].
    + now apply IH.
Qed.

Lemma empty_table_unique : unique_url empty_table.
Proof. constructor. Qed.

Lemma updateProduct_unique (d : DB) (p : Product) :
  unique_url (products d) -> unique_url (products (fst (updateProduct d p))).
Proof.
  intros Hu. unfold updateProduct, db_Exec.
  destruct (faults d) as [|[e|] rest]; simpl; auto using exec_upsert_unique.
Qed.

(** A call that returns no error has executed the statement. *)
Lemma updateProduct_nil (d : DB) (p : Product) :
  snd (updateProduct d p) = None ->
  products (fst (updateProduct d p))
  = exec_upsert (URL p) (Name p) (InStock p) (Price p) (ImageURL p) (UpdatedAt p)
      (products d).
Proof.
  unfold updateProduct, db_Exec.
  destruct (faults d) as [|[e|] rest]; simpl; intros H; try reflexivity; discriminate.
Qed.

(** A call that returns an error has left the table alone. *)
Lemma updateProduct_err (d : DB) (p : Product) (e : error) :
  snd (updateProduct d p) = Some e -> products (fst (updateProduct d p)) = products d.
Proof.
  unfold updateProduct, db_Exec.
  destruct (faults d) as [|[e'|] rest]; simpl; intros H; try reflexivity; discriminate.
Qed.

Lemma upserts_cons (d : DB) (p : Product) (ps : list Product) :
  upserts d (p :: ps)
  = (fst (upserts (fst (updateProduct d p)) ps),
     snd (updateProduct d p) :: snd (upserts (fst (updateProduct d p)) ps)).
Proof.
  simpl. destruct (updateProduct d p) as [d1 e]. simpl.
  now destruct (upserts d1 ps).
Qed.

Lemma last_any_default {A} (l : list A) (x a b : A) :
  last (x :: l) a = last (x :: l) b.
Proof.
  revert x. induction l as [|y l IH]; intros x; [reflexivity|].
  change (last (y :: l) a = last (y :: l) b). apply IH.
Qed.

Lemma last_cons_default {A} (x a b : A) (l : list A) :
  last (x :: l) a = last l x /\ last (x :: l) a = last (x :: l) b.
Proof.
  split; [|apply last_any_default].
  destruct l as [|y l]; [reflexivity|].
  change (last (y :: l) a = last (y :: l) x). apply last_any_default.
Qed.

(** Once a url has its row, further upserts of that url keep one row with
    the same id and the columns of the last product. *)
Lemma upserts_keep_row (u : string) (ps : list Product) :
  forall (d : DB) (r : Row) (p0 : Product),
    select_url u (products d) = [r] ->
    row_matches r p0 ->
    Forall (fun p => URL p = u) ps ->
    Forall (fun e => e = None) (snd (upserts d ps)) ->
    exists r', select_url u (products (fst (upserts d ps))) = [r'] /\
               id r' = id r /\ row_matches r' (last ps p0).
Proof.
  induction ps as [|p ps IH]; intros d r p0 Hsel Hm Hurl Herr.
  - exists r. simpl. auto.
  - rewrite upserts_cons in *. simpl fst. simpl snd in Herr.
    inversion Hurl as [|? ? Hp Hps]. inversion Herr as [|? ? He Hes].
    pose proof (updateProduct_nil d p He) as Hex.
    assert (select_url u (products (fst (updateProduct d p)))
            = [do_update (Name p) (InStock p) (Price p) (ImageURL p) (UpdatedAt p) r]) as Hsel'.
    { rewrite Hex, <- Hp, select_upsert_present; rewrite Hp, Hsel;
        [reflexivity|discriminate]. }
    destruct (IH _ _ p Hsel') as [r' [Ka [Kb Kc]]]; auto.
    { repeat split. }
    exists r'. split; [exact Ka|]. split; [exact Kb|].
    destruct (last_cons_default p p0 p0 ps) as [-> _]. exact Kc.
Qed.

(** C1. N upserts of one url, each returning no error, on a table that
    obeys the unique constraint: the table holds exactly one row for the
    url, whose name, in_stock, price, image_url and updated_at are those of
    the Nth product and whose id is the one the row had after the first
    upsert. *)
Theorem upserts_one_record_last_write_first_id
    (d : DB) (u : string) (p1 : Product) (ps : list Product) :
  unique_url (products d) ->
  Forall (fun p => URL p = u) (p1 :: ps) ->
  Forall (fun e => e = None) (snd (upserts d (p1 :: ps))) ->
  exists r1 rN,
    select_url u (products (fst (updateProduct d p1))) = [r1] /\
    select_url u (products (fst (upserts d (p1 :: ps)))) = [rN] /\
    id rN = id r1 /\
    row_matches rN (last (p1 :: ps) p1).
Proof.
  intros Hu Hurl Herr.
  rewrite upserts_cons in *. simpl fst. simpl snd in Herr.
  inversion Hurl as [|? ? Hp Hps]. inversion Herr as [|? ? He Hes].
  pose proof (updateProduct_nil d p1 He) as Hex.
  assert (exists r1, select_url u (products (fst (updateProduct d p1))) = [r1]
                     /\ row_matches r1 p1) as [r1 [Hr1 Hm1]].
  { rewrite Hex, <- Hp.
    destruct (unique_select (URL p1) (products d) Hu) as [Hn|[r Hr]].
    - rewrite select_upsert_absent by exact Hn. eexists. split; [reflexivity|].
      repeat split.
    - rewrite select_upsert_present by (rewrite Hr; discriminate).
      rewrite Hr. eexists. split; [reflexivity|]. repeat split. }
  destruct (upserts_keep_row u ps _ r1 p1 Hr1 Hm1 Hps Hes) as [rN [Ka [Kb Kc]]].
  exists r1, rN. split; [exact Hr1|]. split; [exact Ka|]. split; [exact Kb|].
  destruct (last_cons_default p1 p1 p1 ps) as [-> _]. exact Kc.
Qed.

(** ** One run of the browser *)

Lemma assign_name (d : Page) (l : Locals) :
  assign into_name (name_script d) l
  = Ok {| v_name := string_of (name_script d); v_imageURL := v_imageURL l;
          v_inStock := v_inStock l; v_buf := v_buf l |}.
Proof. unfold name_script. now destruct (js_or _ _). Qed.

Lemma assign_name_h1 (d : Page) (l : Locals) :
  assign into_name (name_script_h1 d) l
  = Ok {| v_name := string_of (name_script_h1 d); v_imageURL := v_imageURL l;
          v_inStock := v_inStock l; v_buf := v_buf l |}.
Proof. unfold name_script_h1. now destruct (d sel_h1). Qed.

Ltac run_step :=
  cbn [Do primitive effect pending doc vars fst snd evaluate first_fault];
  rewrite ?assign_name, ?assign_name_h1;
  cbn [Do primitive effect pending doc vars fst snd evaluate first_fault assign
       stock_script image_script bool_of string_of
       v_name v_imageURL v_inStock v_buf zero_locals].

Ltac next_outcome l :=
  let e := fresh "e" in
  destruct l as [|[e|] l]; run_step;
  try (split; [reflexivity|discriminate]); try (split; reflexivity).

(** The error of the run of an attempt is the first one the world imposes
    on the start of the browser or on one of the six actions; without one,
    the variables hold what the two scripts compute on the page served. *)
Lemma attempt_run_spec (env : Scraper.Attempt) (url : string) :
  snd (ScraperOutcome.attempt_run env url) = run_fault 6 (Scraper.site env) /\
  (run_fault 6 (Scraper.site env) = None ->
   vars (fst (ScraperOutcome.attempt_run env url))
   = {| v_name := string_of (name_script (serve (Scraper.site env) url));
        v_imageURL := "";
        v_inStock := bool_of (stock_script (serve (Scraper.site env) url));
        v_buf := "" |}).
Proof.
  unfold ScraperOutcome.attempt_run, run_actions, run_fault, Scraper.page_actions.
  destruct (launch (Scraper.site env)) as [e|]; [split; [reflexivity|discriminate]|].
  generalize (outcomes (Scraper.site env)) as l. intros l.
  do 6 (next_outcome l).
Qed.

(** The same for the two runs of the static-list scraper. *)
Lemma load_run_spec (env : StaticScraper.Attempt) (url : string) (d : Page) :
  snd (StaticOutcome.load_run env url d) = run_fault 3 (StaticScraper.load env) /\
  (run_fault 3 (StaticScraper.load env) = None ->
   doc (fst (StaticOutcome.load_run env url d)) = serve (StaticScraper.load env) url).
Proof.
  unfold StaticOutcome.load_run, run_actions, run_fault, StaticScraper.load_actions.
  destruct (launch (StaticScraper.load env)) as [e|]; [split; [reflexivity|discriminate]|].
  generalize (outcomes (StaticScraper.load env)) as l. intros l.
  do 3 (next_outcome l).
Qed.

Lemma detail_run_spec (site : Site) (d : Page) :
  snd (run_actions site d StaticScraper.detail_actions zero_locals) = run_fault 4 site /\
  (run_fault 4 site = None ->
   vars (fst (run_actions site d StaticScraper.detail_actions zero_locals))
   = {| v_name := string_of (name_script_h1 d);
        v_imageURL := first_image d image_selectors;
        v_inStock := bool_of (stock_script d);
        v_buf := "" |}).
Proof.
  unfold run_actions, run_fault, StaticScraper.detail_actions.
  destruct (launch site) as [e|]; [split; [reflexivity|discriminate]|].
  generalize (outcomes site) as l. intros l.
  do 4 (next_outcome l).
Qed.

(** ** One attempt of the urls.json scraper *)

Ltac step :=
  cbn [bind ret emit fresh set_tab log_Printf time_Sleep chromedp_NewExecAllocator
       chromedp_NewContext context_WithTimeout cancel chromedp_Run store os_WriteFile
       val world events tab cid next_ctx tabs db app fst snd].

Ltac observe :=
  cbn [upserted upsert_calls slept logged ran_tabs created flat_map filter is_capture
       app tab last Nat.add].

Section ScraperAttempt.
Import Scraper ScraperOutcome.
Variables (env : Attempt) (url : string) (w : World).

Let pre : Duration := (2 + rand_Intn (rnd_pre env) 5) * Second.
Let post : Duration := (5 + rand_Intn (rnd_post env) 10) * Second.
Let n : nat := next_ctx w.

(** A run that returns an error: one delay, two browsers, no upsert, the
    database as it was, and the error reported last. *)
Lemma scrape_url_failure (e : error) :
  snd (attempt_run env url) = Some e ->
  let r := scrape_url env url w in
  db (world r) = db w /\
  upserted (events r) = [] /\
  slept (events r) = [pre] /\
  last (events r) (Logged "")
    = Logged ("Failed to load or scrape page " ++ url ++ ": " ++ e) /\
  next_ctx (world r) = (6 + n)%nat /\
  ran_tabs (events r) = [Some (1 + n)%nat; Some (4 + n)%nat] /\
  created (events r) = [(1 + n)%nat; (4 + n)%nat] /\
  filter is_capture (events r) <> [] /\
  upsert_calls (events r) = [].
Proof.
  subst pre post n. destruct w as [d n tb]. intros H.
  unfold scrape_url, capture. step. rewrite ?Nat.eqb_refl.
  fold (attempt_run env url).
  destruct (attempt_run env url) as [s o]. simpl in H. subst o. step.
  rewrite ?Nat.eqb_refl.
  destruct (run_actions (shot env) about_blank _ _) as [s' [e'|]]; step;
    [|destruct (write_err env); step]; observe;
    repeat split; try reflexivity; discriminate.
Qed.

(** A run that returns no error: both delays, one browser, one upsert of
    the product scraped, and no capture. *)
Lemma scrape_url_success :
  snd (attempt_run env url) = None ->
  let r := scrape_url env url w in
  db (world r) = fst (updateProduct (db w) (scraped env url)) /\
  upserted (events r) = [scraped env url] /\
  slept (events r) = [pre; post] /\
  next_ctx (world r) = (3 + n)%nat /\
  ran_tabs (events r) = [Some (1 + n)%nat] /\
  created (events r) = [(1 + n)%nat] /\
  filter is_capture (events r) = [] /\
  upsert_calls (events r)
    = [(scraped env url, snd (updateProduct (db w) (scraped env url)))].
Proof.
  subst pre post n. destruct w as [d n tb]. intros H.
  unfold scrape_url, persist, scraped. step. rewrite ?Nat.eqb_refl.
  fold (attempt_run env url).
  destruct (attempt_run env url) as [s o]. simpl in H. subst o. step.
  destruct (snd (updateProduct d _)); step; observe; repeat split; reflexivity.
Qed.
End ScraperAttempt.

(** ** One attempt of the static-list scraper *)

(** The first run returns an error: nothing else happens. *)
Lemma static_load_failure (ctx : Context) (t : nat) (env : StaticScraper.Attempt)
    (url : string) (w : World) (e : error) :
  tab ctx = Some t ->
  snd (StaticOutcome.load_run env url (tabs w t)) = Some e ->
  let r := StaticScraper.scrape_url ctx env url w in
  db (world r) = db w /\
  upserted (events r) = [] /\
  slept (events r) = [] /\
  last (events r) (Logged "") = Logged ("Failed to load page: " ++ e) /\
  next_ctx (world r) = next_ctx w /\
  ran_tabs (events r) = [Some t] /\
  created (events r) = [].
Proof.
  destruct w as [dbw n tb]. destruct ctx as [c o]. simpl. intros -> H.
  unfold StaticScraper.scrape_url. step. fold (StaticOutcome.load_run env url (tb t)).
  destruct (StaticOutcome.load_run env url (tb t)) as [s o]. simpl in H. subst o.
  step. observe. repeat split; reflexivity.
Qed.

(** The second run returns an error: no upsert either. *)
Lemma static_detail_failure (ctx : Context) (t : nat) (env : StaticScraper.Attempt)
    (url : string) (w : World) (e : error) :
  tab ctx = Some t ->
  snd (StaticOutcome.load_run env url (tabs w t)) = None ->
  snd (StaticOutcome.detail_run env url (tabs w t)) = Some e ->
  let r := StaticScraper.scrape_url ctx env url w in
  db (world r) = db w /\
  upserted (events r) = [] /\
  slept (events r) = [] /\
  last (events r) (Logged "") = Logged ("Failed to scrape details: " ++ e) /\
  next_ctx (world r) = next_ctx w /\
  ran_tabs (events r) = [Some t; Some t] /\
  created (events r) = [].
Proof.
  destruct w as [dbw n tb]. destruct ctx as [c o]. simpl. intros -> H1 H2.
  unfold StaticScraper.scrape_url. step. unfold StaticOutcome.detail_run in H2.
  fold (StaticOutcome.load_run env url (tb t)).
  destruct (StaticOutcome.load_run env url (tb t)) as [s o]. simpl in H1. subst o. step.
  rewrite Nat.eqb_refl. simpl fst in H2.
  destruct (run_actions (StaticScraper.details env) (doc s)
              StaticScraper.detail_actions zero_locals) as [s' o].
  simpl in H2. subst o. step. observe.
  repeat split; reflexivity.
Qed.

(** Both runs return no error: one upsert of the product scraped, then the
    fixed delay. *)
Lemma static_success (ctx : Context) (t : nat) (env : StaticScraper.Attempt)
    (url : string) (w : World) :
  tab ctx = Some t ->
  snd (StaticOutcome.load_run env url (tabs w t)) = None ->
  snd (StaticOutcome.detail_run env url (tabs w t)) = None ->
  let r := StaticScraper.scrape_url ctx env url w in
  db (world r) = fst (updateProduct (db w) (StaticOutcome.scraped env url (tabs w t))) /\
  upserted (events r) = [StaticOutcome.scraped env url (tabs w t)] /\
  slept (events r) = [10 * Second] /\
  next_ctx (world r) = next_ctx w /\
  ran_tabs (events r) = [Some t; Some t] /\
  created (events r) = [].
Proof.
  destruct w as [dbw n tb]. destruct ctx as [c o]. simpl. intros -> H1 H2.
  unfold StaticScraper.scrape_url, StaticScraper.persist, StaticOutcome.scraped.
  step. unfold StaticOutcome.detail_run in *.
  fold (StaticOutcome.load_run env url (tb t)).
  destruct (StaticOutcome.load_run env url (tb t)) as [s o]. simpl in H1. subst o. step.
  rewrite Nat.eqb_refl. simpl fst in *.
  destruct (run_actions (StaticScraper.details env) (doc s)
              StaticScraper.detail_actions zero_locals) as [s' o].
  simpl in H2. subst o. step.
  destruct (snd (updateProduct dbw _)); step; observe; repeat split; reflexivity.
Qed.

(** ** Traces of a whole cycle *)

Lemma upserted_app (t1 t2 : list Event) :
  upserted (t1 ++ t2) = (upserted t1 ++ upserted t2)%list.
Proof. apply flat_map_app. Qed.

Lemma ran_tabs_app (t1 t2 : list Event) :
  ran_tabs (t1 ++ t2) = (ran_tabs t1 ++ ran_tabs t2)%list.
Proof. apply flat_map_app. Qed.

Lemma slept_app (t1 t2 : list Event) :
  slept (t1 ++ t2) = (slept t1 ++ slept t2)%list.
Proof. apply flat_map_app. Qed.

(** An upsert of another url leaves the rows of [u] alone, whatever the
    connection does. *)
Lemma updateProduct_other (u : string) (d : DB) (p : Product) :
  URL p <> u ->
  select_url u (products (fst (updateProduct d p))) = select_url u (products d).
Proof.
  intros Hne. unfold updateProduct, db_Exec.
  destruct (faults d) as [|[e|] rest]; simpl; try reflexivity;
    apply select_upsert_other; congruence.
Qed.

(** Every attempt of the urls.json scraper falls in one of the two cases. *)
Lemma scrape_url_cases (env : Scraper.Attempt) (url : string) (w : World) :
  let r := Scraper.scrape_url env url w in
  (exists e, snd (ScraperOutcome.attempt_run env url) = Some e /\
             db (world r) = db w /\ upserted (events r) = []) \/
  (snd (ScraperOutcome.attempt_run env url) = None /\
   db (world r) = fst (updateProduct (db w) (ScraperOutcome.scraped env url)) /\
   upserted (events r) = [ScraperOutcome.scraped env url]).
Proof.
  destruct (snd (ScraperOutcome.attempt_run env url)) as [e|] eqn:E.
  - left. exists e. destruct (scrape_url_failure env url w e E) as [H1 [H2 _]]. auto.
  - right. destruct (scrape_url_success env url w E) as [H1 [H2 _]]. auto.
Qed.

(** A cycle of attempts in which every attempt on [u] fails hands no
    product of url [u] to [updateProduct] and leaves the rows of [u] as
    they were. *)
Lemma scrape_urls_failed_url (u : string) (attempts : nat -> Scraper.Attempt)
    (urls : list string) :
  forall (i : nat) (w : World),
    (forall j, nth_error urls j = Some u ->
               exists e, snd (ScraperOutcome.attempt_run (attempts (i + j)%nat) u) = Some e) ->
    let r := Scraper.scrape_urls attempts i urls w in
    ~ In u (map URL (upserted (events r))) /\
    select_url u (products (db (world r))) = select_url u (products (db w)).
Proof.
  induction urls as [|v urls IH]; intros i w Hfail.
  - split; [intros []|reflexivity].
  - change (Scraper.scrape_urls attempts i (v :: urls) w)
      with (bind (Scraper.scrape_url (attempts i) v)
                 (fun _ => Scraper.scrape_urls attempts (S i) urls) w).
    cbv zeta. unfold bind at 1 2. cbn [events world].
    assert (~ In u (map URL (upserted (events (Scraper.scrape_url (attempts i) v w)))) /\
            select_url u (products (db (world (Scraper.scrape_url (attempts i) v w))))
            = select_url u (products (db w))) as [Hn1 Hs1].
    { destruct (scrape_url_cases (attempts i) v w) as [[e [_ [Hd Hu]]]|[Hok [Hd Hu]]];
        rewrite Hu, Hd.
      - split; [intros []|reflexivity].
      - assert (v <> u) as Hne.
        { intros ->. destruct (Hfail 0%nat eq_refl) as [e He].
          rewrite Nat.add_0_r in He. congruence. }
        split.
        + intros [H|[]]. apply Hne. exact H.
        + apply updateProduct_other. exact Hne. }
    destruct (IH (S i) (world (Scraper.scrape_url (attempts i) v w))) as [Hn2 Hs2].
    { intros j Hj. destruct (Hfail (S j) Hj) as [e He]. exists e.
      now rewrite Nat.add_succ_comm. }
    split.
    + rewrite upserted_app, map_app, in_app_iff. tauto.
    + now rewrite Hs2.
Qed.

(** ** Outcomes *)

Lemma outcome_failure (env : Scraper.Attempt) (url : string) (e : error) :
  ScraperOutcome.outcome env url = Failure e <->
  snd (ScraperOutcome.attempt_run env url) = Some e.
Proof.
  unfold ScraperOutcome.outcome, outcome_of.
  destruct (snd (ScraperOutcome.attempt_run env url)); split; congruence.
Qed.

Lemma static_outcome_failure (env : StaticScraper.Attempt) (url : string) (d : Page)
    (e : error) :
  StaticOutcome.outcome env url d = Failure e <->
  snd (StaticOutcome.load_run env url d) = Some e \/
  (snd (StaticOutcome.load_run env url d) = None /\
   snd (StaticOutcome.detail_run env url d) = Some e).
Proof.
  unfold StaticOutcome.outcome, outcome_of.
  destruct (snd (StaticOutcome.load_run env url d)).
  - split; [intros H; left; congruence|intros [H|[H _]]; congruence].
  - destruct (snd (StaticOutcome.detail_run env url d)); split;
      try congruence; try (intros H; right; split; congruence);
      intros [H|[_ H]]; congruence.
Qed.

(** On a context that derives from no chromedp context the first run is
    refused and nothing is written. *)
Lemma static_no_tab (ctx : Context) (env : StaticScraper.Attempt) (url : string)
    (w : World) :
  tab ctx = None ->
  let r := StaticScraper.scrape_url ctx env url w in
  db (world r) = db w /\ upserted (events r) = [] /\ slept (events r) = [].
Proof.
  destruct w as [dbw n tb]. destruct ctx as [c o]. simpl. intros ->.
  unfold StaticScraper.scrape_url. step. observe. auto.
Qed.

(** Every attempt of the static-list scraper writes nothing, or went
    through both runs and wrote the product scraped. *)
Lemma static_cases (ctx : Context) (env : StaticScraper.Attempt) (url : string)
    (w : World) :
  let r := StaticScraper.scrape_url ctx env url w in
  (db (world r) = db w /\ upserted (events r) = [] /\ slept (events r) = []) \/
  (exists t, tab ctx = Some t /\
             snd (StaticOutcome.load_run env url (tabs w t)) = None /\
             snd (StaticOutcome.detail_run env url (tabs w t)) = None /\
             db (world r)
             = fst (updateProduct (db w) (StaticOutcome.scraped env url (tabs w t))) /\
             upserted (events r) = [StaticOutcome.scraped env url (tabs w t)] /\
             slept (events r) = [10 * Second]).
Proof.
  destruct (tab ctx) as [t|] eqn:Ht.
  - destruct (snd (StaticOutcome.load_run env url (tabs w t))) as [e|] eqn:E1.
    + left. destruct (static_load_failure ctx t env url w e Ht E1) as [? [? [? _]]]. auto.
    + destruct (snd (StaticOutcome.detail_run env url (tabs w t))) as [e|] eqn:E2.
      * left.
        destruct (static_detail_failure ctx t env url w e Ht E1 E2) as [? [? [? _]]]. auto.
      * right. exists t.
        destruct (static_success ctx t env url w Ht E1 E2) as [? [? [? _]]].
        repeat split; assumption.
  - left. now apply static_no_tab.
Qed.

(** What a successful attempt of the static-list scraper has in its
    variables: the values of the three scripts on the page served. *)
Lemma static_scraped_fields (env : StaticScraper.Attempt) (url : string) (d : Page) :
  snd (StaticOutcome.load_run env url d) = None ->
  snd (StaticOutcome.detail_run env url d) = None ->
  StaticOutcome.scraped env url d
  = {| ID := 0; URL := url;
       Name := string_of (name_script_h1 (serve (StaticScraper.load env) url));
       InStock := bool_of (stock_script (serve (StaticScraper.load env) url));
       Price := float64_zero;
       ImageURL := first_image (serve (StaticScraper.load env) url) image_selectors;
       UpdatedAt := StaticScraper.scraped_at env |}.
Proof.
  intros H1 H2. unfold StaticOutcome.scraped, StaticOutcome.detail_run in *.
  destruct (load_run_spec env url d) as [L1 L2].
  rewrite L1 in H1. rewrite (L2 H1) in *.
  destruct (detail_run_spec (StaticScraper.details env) (serve (StaticScraper.load env) url))
    as [D1 D2].
  rewrite D1 in H2. rewrite (D2 H2). reflexivity.
Qed.

(** ** C2: a failed attempt writes nothing *)

(** C2. An attempt whose browser run returns an error (outcome Failure)
    makes no call of updateProduct and leaves the database as it was, in
    both programs; and in a cycle of the urls.json scraper in which every
    attempt on url u fails, no product of url u is handed to updateProduct
    and the rows stored for u are unchanged. *)
Theorem failure_makes_no_upsert :
  (forall (env : Scraper.Attempt) (url : string) (w : World) (e : error),
      ScraperOutcome.outcome env url = Failure e ->
      let r := Scraper.scrape_url env url w in
      upserted (events r) = [] /\ db (world r) = db w) /\
  (forall (env : Scraper.Cycle) (ctx : Context) (w : World) (data : string)
          (urls : list string) (u : string),
      Scraper.ReadFile env "urls.json" = Ok data ->
      Scraper.Unmarshal env data = Ok urls ->
      (forall j, nth_error urls j = Some u ->
                 exists e, ScraperOutcome.outcome (Scraper.attempts env j) u = Failure e) ->
      let r := Scraper.scrapeProducts env ctx w in
      ~ In u (map URL (upserted (events r))) /\
      select_url u (products (db (world r))) = select_url u (products (db w))) /\
  (forall (ctx : Context) (t : nat) (env : StaticScraper.Attempt) (url : string)
          (w : World) (e : error),
      tab ctx = Some t ->
      StaticOutcome.outcome env url (tabs w t) = Failure e ->
      let r := StaticScraper.scrape_url ctx env url w in
      upserted (events r) = [] /\ db (world r) = db w).
Proof.
  split; [|split].
  - intros env url w e H. apply outcome_failure in H.
    destruct (scrape_url_failure env url w e H) as [H1 [H2 _]]. auto.
  - intros env ctx w data urls u Hr Hu Hfail. unfold Scraper.scrapeProducts.
    rewrite Hr, Hu. cbn [bind ret log_Printf emit events world val app].
    destruct (scrape_urls_failed_url u (Scraper.attempts env) urls 0 w) as [H1 H2].
    { intros j Hj. destruct (Hfail j Hj) as [e He]. exists e.
      now apply outcome_failure in He. }
    rewrite app_nil_r. split; assumption.
  - intros ctx t env url w e Ht H. apply static_outcome_failure in H.
    destruct H as [H|[H1 H2]].
    + destruct (static_load_failure ctx t env url w e Ht H) as [? [? _]]. auto.
    + destruct (static_detail_failure ctx t env url w e Ht H1 H2) as [? [? _]]. auto.
Qed.

(** ** C3: which errors end an attempt *)

(** C3, as the code has it. The outcome of an attempt is decided by the
    first error of its browser run, whichever action it comes from: with
    an error, also one from evaluating the name or the stock script after
    navigation and both waits went through, the outcome is Failure with
    that error and no product is upserted; without one, the outcome is
    Success with the values the scripts compute on the page, and exactly
    that product is upserted.  The same holds for the two runs of the
    static-list scraper. *)
Theorem outcome_is_first_run_error :
  (forall (env : Scraper.Attempt) (url : string) (w : World),
      let r := Scraper.scrape_url env url w in
      let page := serve (Scraper.site env) url in
      match run_fault 6 (Scraper.site env) with
      | Some e =>
          ScraperOutcome.outcome env url = Failure e /\ upserted (events r) = []
      | None =>
          ScraperOutcome.outcome env url
          = Success (string_of (name_script page)) (bool_of (stock_script page)) "" /\
          upserted (events r)
          = [ {| ID := 0; URL := url; Name := string_of (name_script page);
                 InStock := bool_of (stock_script page); Price := float64_zero;
                 ImageURL := ""; UpdatedAt := Scraper.scraped_at env |} ]
      end) /\
  (forall (ctx : Context) (t : nat) (env : StaticScraper.Attempt) (url : string)
          (w : World),
      tab ctx = Some t ->
      let r := StaticScraper.scrape_url ctx env url w in
      let page := serve (StaticScraper.load env) url in
      match run_fault 3 (StaticScraper.load env), run_fault 4 (StaticScraper.details env) with
      | Some e, _ | None, Some e =>
          StaticOutcome.outcome env url (tabs w t) = Failure e /\
          upserted (events r) = []
      | None, None =>
          StaticOutcome.outcome env url (tabs w t)
          = Success (string_of (name_script_h1 page)) (bool_of (stock_script page))
              (first_image page image_selectors) /\
          upserted (events r)
          = [ {| ID := 0; URL := url; Name := string_of (name_script_h1 page);
                 InStock := bool_of (stock_script page); Price := float64_zero;
                 ImageURL := first_image page image_selectors;
                 UpdatedAt := StaticScraper.scraped_at env |} ]
      end).
Proof.
  split.
  - intros env url w r page. subst r page.
    destruct (attempt_run_spec env url) as [H1 H2].
    destruct (run_fault 6 (Scraper.site env)) as [e|] eqn:E.
    + split; [now apply outcome_failure|].
      destruct (scrape_url_failure env url w e H1) as [_ [H _]]. exact H.
    + specialize (H2 eq_refl).
      destruct (scrape_url_success env url w H1) as [_ [H _]]. rewrite H.
      unfold ScraperOutcome.outcome, outcome_of, ScraperOutcome.scraped, product_literal.
      rewrite H1, H2. split; reflexivity.
  - intros ctx t env url w Ht r page. subst r page.
    destruct (load_run_spec env url (tabs w t)) as [L1 L2].
    destruct (run_fault 3 (StaticScraper.load env)) as [e|] eqn:E1.
    + split; [apply static_outcome_failure; now left|].
      destruct (static_load_failure ctx t env url w e Ht L1) as [_ [H _]]. exact H.
    + specialize (L2 eq_refl).
      destruct (detail_run_spec (StaticScraper.details env)
                  (serve (StaticScraper.load env) url)) as [D1 D2].
      assert (snd (StaticOutcome.detail_run env url (tabs w t))
              = run_fault 4 (StaticScraper.details env)) as D.
      { unfold StaticOutcome.detail_run. now rewrite L2. }
      destruct (run_fault 4 (StaticScraper.details env)) as [e|] eqn:E2.
      * split; [apply static_outcome_failure; now right|].
        destruct (static_detail_failure ctx t env url w e Ht L1 D) as [_ [H _]]. exact H.
      * destruct (static_success ctx t env url w Ht L1 D) as [_ [H _]]. rewrite H.
        rewrite (static_scraped_fields env url (tabs w t) L1 D).
        split; [|reflexivity].
        unfold StaticOutcome.outcome, outcome_of. rewrite L1, D.
        unfold StaticOutcome.detail_run. rewrite L2, (D2 eq_refl). reflexivity.
Qed.

(** C3, as the claim states it, fails: navigation and both waits go
    through, the evaluation of the name returns an error, and the attempt
    is a Failure with no upsert. *)
Lemma extract_error_ends_attempt_as_failure :
  first_fault 4 (outcomes (Scraper.site Sample.attempt_eval_error)) = None /\
  nth 4 (outcomes (Scraper.site Sample.attempt_eval_error)) None
    = Some "exception in script" /\
  ScraperOutcome.outcome Sample.attempt_eval_error Sample.urlA
    = Failure "exception in script" /\
  upserted (events (Scraper.scrape_url Sample.attempt_eval_error Sample.urlA Sample.w0)) = [] /\
  products (db (world (Scraper.scrape_url Sample.attempt_eval_error Sample.urlA Sample.w0)))
    = empty_table.
Proof. repeat split; reflexivity. Qed.

(** ** C4: the error of a cycle *)

Lemma scrape_urls_val (attempts : nat -> Scraper.Attempt) (urls : list string) :
  forall (i : nat) (w : World), val (Scraper.scrape_urls attempts i urls w) = tt.
Proof. intros i w. now destruct (val (Scraper.scrape_urls attempts i urls w)). Qed.

(** C4. scrapeProducts returns an error exactly when urls.json cannot be
    read or cannot be parsed, and then it is that error; whatever the
    attempts and the database do, a cycle that loaded its list returns nil.
    The loop body logs the error of a cycle, the process is still in its
    loop after any number of iterations, and the next cycle runs after a
    cycle that failed. *)
Theorem cycle_error_is_load_error :
  (forall (env : Scraper.Cycle) (ctx : Context) (w : World) (e : error),
      val (Scraper.scrapeProducts env ctx w) = Some e <->
      (Scraper.ReadFile env "urls.json" = Err e \/
       exists data, Scraper.ReadFile env "urls.json" = Ok data /\
                    Scraper.Unmarshal env data = Err e)) /\
  (forall (env : Scraper.Cycle) (ctx : Context) (w : World) (e : error),
      val (Scraper.scrapeProducts env ctx w) = Some e ->
      last (events (Scraper.iteration env ctx w)) (Logged "")
      = Logged ("Error in scrape cycle: " ++ e)) /\
  (forall (start : Start) (cycles : nat -> Scraper.Cycle) (n : nat) (w : World),
      dotenv start = None -> logfile start = None -> sql_open start = None ->
      exists r, Scraper.main start cycles n w = Running r) /\
  (forall (n : nat) (cycles : nat -> Scraper.Cycle) (k : nat) (ctx : Context) (w : World),
      let r1 := Scraper.iteration (cycles k) ctx w in
      events (Scraper.loop (S n) cycles k ctx w)
      = (events r1 ++ events (Scraper.loop n cycles (S k) ctx (world r1)))%list).
Proof.
  split; [|split; [|split]].
  - intros env ctx w e. unfold Scraper.scrapeProducts.
    destruct (Scraper.ReadFile env "urls.json") as [data|e1] eqn:R.
    + destruct (Scraper.Unmarshal env data) as [urls|e2] eqn:U;
        cbn [bind ret log_Printf emit val world events].
      * split; [discriminate|].
        intros [H|[data' [H1 H2]]]; [discriminate|].
        injection H1 as <-. congruence.
      * split.
        -- intros H. right. exists data. split; [reflexivity|congruence].
        -- intros [H|[data' [H1 H2]]]; [discriminate|].
           injection H1 as <-. congruence.
    + cbn [bind ret log_Printf emit val world events]. split.
      * intros H. left. congruence.
      * intros [H|[data' [H1 H2]]]; [congruence|discriminate].
  - intros env ctx w e H. unfold Scraper.iteration.
    cbn [bind events val world]. rewrite H.
    cbn [log_Printf emit events]. apply last_last.
  - intros start cycles n w H1 H2 H3. unfold Scraper.main.
    rewrite H1, H2, H3. eexists. reflexivity.
  - intros n cycles k ctx w. reflexivity.
Qed.

(** ** C5: the context of each run *)

Lemma fresh_between_nil (lo hi : nat) : fresh_between lo hi [].
Proof. split; constructor. Qed.

Lemma fresh_between_app (lo mid hi : nat) (l1 l2 : list (option nat)) :
  (lo <= mid)%nat -> (mid <= hi)%nat ->
  fresh_between lo mid l1 -> fresh_between mid hi l2 ->
  fresh_between lo hi (l1 ++ l2).
Proof.
  intros H1 H2 [N1 F1] [N2 F2]. split.
  - induction l1 as [|o l1 IH]; [exact N2|].
    simpl. inversion N1 as [|? ? Hnot Hl1]; subst.
    inversion F1 as [|? ? [x [Hx Hr]] Fl1]; subst.
    constructor; [|now apply IH].
    rewrite in_app_iff. intros [Hin|Hin]; [contradiction|].
    rewrite Forall_forall in F2. destruct (F2 _ Hin) as [y [Hy Hry]].
    injection Hy as <-. lia.
  - apply Forall_app. split; [eapply Forall_impl; [|exact F1]|eapply Forall_impl; [|exact F2]];
      intros o [x [Hx Hr]]; exists x; (split; [exact Hx|lia]).
Qed.

Lemma fresh_ret {A} (a : A) : runs_on_fresh_tabs (ret a).
Proof. intros w. simpl. split; [lia|apply fresh_between_nil]. Qed.

Lemma fresh_log (msg : string) : runs_on_fresh_tabs (log_Printf msg).
Proof. intros w. simpl. split; [lia|apply fresh_between_nil]. Qed.

Lemma fresh_sleep (d : Duration) : runs_on_fresh_tabs (time_Sleep d).
Proof. intros w. simpl. split; [lia|apply fresh_between_nil]. Qed.

Lemma fresh_bind {A B} (m : M A) (k : A -> M B) :
  runs_on_fresh_tabs m -> (forall a, runs_on_fresh_tabs (k a)) ->
  runs_on_fresh_tabs (bind m k).
Proof.
  intros Hm Hk w. cbn [bind world events].
  destruct (Hm w) as [L1 F1]. destruct (Hk (val (m w)) (world (m w))) as [L2 F2].
  split; [lia|]. rewrite ran_tabs_app.
  eapply fresh_between_app; eauto.
Qed.

Lemma fresh_scrape_url (env : Scraper.Attempt) (url : string) :
  runs_on_fresh_tabs (Scraper.scrape_url env url).
Proof.
  intros w. destruct (snd (ScraperOutcome.attempt_run env url)) as [e|] eqn:E.
  - destruct (scrape_url_failure env url w e E) as [_ [_ [_ [_ [Hn [Hr _]]]]]].
    rewrite Hn, Hr. split; [lia|]. split.
    + constructor; [|constructor; [intros []|constructor]].
      intros [H|[]]. injection H. lia.
    + repeat constructor; eexists; (split; [reflexivity|lia]).
  - destruct (scrape_url_success env url w E) as [_ [_ [_ [Hn [Hr _]]]]].
    rewrite Hn, Hr. split; [lia|]. split.
    + constructor; [intros []|constructor].
    + repeat constructor; eexists; (split; [reflexivity|lia]).
Qed.

Lemma fresh_scrape_urls (attempts : nat -> Scraper.Attempt) (urls : list string) :
  forall i, runs_on_fresh_tabs (Scraper.scrape_urls attempts i urls).
Proof.
  induction urls as [|u urls IH]; intros i; simpl.
  - apply fresh_ret.
  - apply fresh_bind; [apply fresh_scrape_url|intros _; apply IH].
Qed.

Lemma fresh_scrapeProducts (env : Scraper.Cycle) (ctx : Context) :
  runs_on_fresh_tabs (Scraper.scrapeProducts env ctx).
Proof.
  unfold Scraper.scrapeProducts.
  destruct (Scraper.ReadFile env "urls.json") as [data|e].
  - destruct (Scraper.Unmarshal env data) as [urls|e].
    + apply fresh_bind; [apply fresh_log|intros _].
      apply fresh_bind; [apply fresh_scrape_urls|intros _; apply fresh_ret].
    + apply fresh_bind; [apply fresh_log|intros _; apply fresh_ret].
  - apply fresh_bind; [apply fresh_log|intros _; apply fresh_ret].
Qed.

Lemma fresh_loop (n : nat) (cycles : nat -> Scraper.Cycle) (ctx : Context) :
  forall k, runs_on_fresh_tabs (Scraper.loop n cycles k ctx).
Proof.
  induction n as [|n IH]; intros k; simpl.
  - apply fresh_ret.
  - apply fresh_bind; [|intros _; apply IH].
    unfold Scraper.iteration. apply fresh_bind; [apply fresh_scrapeProducts|].
    intros [e|]; [apply fresh_log|apply fresh_ret].
Qed.

(** The runs of the static-list scraper all act on the tab of the context
    they are given, and no context is created. *)
Lemma static_scrape_url_tabs (ctx : Context) (env : StaticScraper.Attempt)
    (url : string) (w : World) :
  let r := StaticScraper.scrape_url ctx env url w in
  Forall (fun o => o = tab ctx) (ran_tabs (events r)) /\ created (events r) = [].
Proof.
  destruct (tab ctx) as [t|] eqn:Ht.
  - destruct (snd (StaticOutcome.load_run env url (tabs w t))) as [e|] eqn:E1.
    + destruct (static_load_failure ctx t env url w e Ht E1)
        as [_ [_ [_ [_ [_ [Hr Hc]]]]]].
      cbv zeta. rewrite Hr, Hc. split; [repeat constructor|reflexivity].
    + destruct (snd (StaticOutcome.detail_run env url (tabs w t))) as [e|] eqn:E2.
      * destruct (static_detail_failure ctx t env url w e Ht E1 E2)
          as [_ [_ [_ [_ [_ [Hr Hc]]]]]].
        cbv zeta. rewrite Hr, Hc. split; [repeat constructor|reflexivity].
      * destruct (static_success ctx t env url w Ht E1 E2) as [_ [_ [_ [_ [Hr Hc]]]]].
        cbv zeta. rewrite Hr, Hc. split; [repeat constructor|reflexivity].
  - destruct w as [dbw n tb]. destruct ctx as [c o]. simpl in Ht. subst o.
    unfold StaticScraper.scrape_url. step. observe. split; [repeat constructor|reflexivity].
Qed.

Lemma created_app (t1 t2 : list Event) :
  created (t1 ++ t2) = (created t1 ++ created t2)%list.
Proof. apply flat_map_app. Qed.

Lemma static_loop_tabs (ctx : Context) (cycles : nat -> nat -> StaticScraper.Attempt)
    (n : nat) :
  forall (k : nat) (w : World),
    let r := StaticScraper.loop n cycles k ctx w in
    Forall (fun o => o = tab ctx) (ran_tabs (events r)) /\ created (events r) = [].
Proof.
  induction n as [|n IH]; intros k w; [split; [constructor|reflexivity]|].
  cbn [StaticScraper.loop bind events world].
  set (r1 := StaticScraper.iteration (cycles k) ctx w).
  destruct (IH (S k) (world r1)) as [F2 C2].
  assert (Forall (fun o => o = tab ctx) (ran_tabs (events r1)) /\ created (events r1) = [])
    as [F1 C1].
  { subst r1. unfold StaticScraper.iteration, StaticScraper.scrapeProducts,
      StaticScraper.scrape_urls, StaticScraper.urls.
    cbn [bind ret log_Printf time_Sleep emit events world val].
    match goal with
    | |- context [StaticScraper.scrape_url ctx ?a ?u ?w0] =>
        destruct (static_scrape_url_tabs ctx a u w0) as [F C];
        set (r0 := StaticScraper.scrape_url ctx a u w0) in *
    end.
    rewrite !ran_tabs_app, !created_app, C. simpl.
    rewrite !app_nil_r. split; [exact F|reflexivity]. }
  rewrite ran_tabs_app, created_app, C1, C2. split; [|reflexivity].
  apply Forall_app. split; assumption.
Qed.

(** C5, as the code has it. In the urls.json scraper every run of an
    attempt, the screenshot run included, acts on a chromedp context that
    was created in that attempt, and over any number of cycles no tab is
    used by two runs.  In the static-list scraper of main/main.go no
    context is created in the loop: every run of every attempt of every
    cycle acts on the one context [main] passes down. *)
Theorem contexts_of_runs :
  (forall (env : Scraper.Attempt) (url : string) (w : World),
      let r := Scraper.scrape_url env url w in
      Forall (fun o => exists x, o = Some x /\ In x (created (events r)) /\
                                 (next_ctx w <= x)%nat)
             (ran_tabs (events r))) /\
  (forall (n : nat) (cycles : nat -> Scraper.Cycle) (k : nat) (ctx : Context) (w : World),
      NoDup (ran_tabs (events (Scraper.loop n cycles k ctx w)))) /\
  (forall (n : nat) (cycles : nat -> nat -> StaticScraper.Attempt) (k : nat)
          (ctx : Context) (w : World),
      let r := StaticScraper.loop n cycles k ctx w in
      Forall (fun o => o = tab ctx) (ran_tabs (events r)) /\ created (events r) = []).
Proof.
  split; [|split].
  - intros env url w. cbv zeta.
    destruct (snd (ScraperOutcome.attempt_run env url)) as [e|] eqn:E.
    + destruct (scrape_url_failure env url w e E) as [_ [_ [_ [_ [_ [Hr [Hc _]]]]]]].
      rewrite Hr, Hc.
      repeat constructor; eexists; (split; [reflexivity|]); (split; [simpl; auto|lia]).
    + destruct (scrape_url_success env url w E) as [_ [_ [_ [_ [Hr [Hc _]]]]]].
      rewrite Hr, Hc.
      repeat constructor; eexists; (split; [reflexivity|]); (split; [simpl; auto|lia]).
  - intros n cycles k ctx w. destruct (fresh_loop n cycles ctx k w) as [_ [H _]]. exact H.
  - intros n cycles k ctx w. apply static_loop_tabs.
Qed.

(** C5, as the claim states it, fails on main/main.go: over two cycles the
    process creates one chromedp context, in [main], and its four runs all
    act on it. *)
Lemma static_context_is_reused :
  exists r, StaticScraper.main Sample.start_ok (fun _ _ => Sample.static_ok) 2 Sample.w0
            = Running r /\
            created (events r) = [2%nat] /\
            ran_tabs (events r) = [Some 2%nat; Some 2%nat; Some 2%nat; Some 2%nat].
Proof. eexists. split; [reflexivity|]. split; reflexivity. Qed.

(** ** What an attempt upserts *)

(** The products an attempt of the urls.json scraper hands to
    [updateProduct]: none, or the one made of the values of the two
    scripts on the page served, with no image and no price. *)
Lemma scraper_upserted (env : Scraper.Attempt) (url : string) (w : World) :
  let page := serve (Scraper.site env) url in
  upserted (events (Scraper.scrape_url env url w)) = [] \/
  upserted (events (Scraper.scrape_url env url w))
  = [ {| ID := 0; URL := url; Name := string_of (name_script page);
         InStock := bool_of (stock_script page); Price := float64_zero;
         ImageURL := ""; UpdatedAt := Scraper.scraped_at env |} ].
Proof.
  cbv zeta.
  destruct (scrape_url_cases env url w) as [[e [_ [_ H]]]|[Hok [_ H]]]; [now left|right].
  rewrite H. destruct (attempt_run_spec env url) as [H1 H2].
  rewrite Hok in H1. symmetry in H1.
  unfold ScraperOutcome.scraped, product_literal. rewrite (H2 H1). reflexivity.
Qed.

(** The same for the static-list scraper, whose product carries the image
    the third script finds. *)
Lemma static_upserted (ctx : Context) (env : StaticScraper.Attempt) (url : string)
    (w : World) :
  let page := serve (StaticScraper.load env) url in
  upserted (events (StaticScraper.scrape_url ctx env url w)) = [] \/
  upserted (events (StaticScraper.scrape_url ctx env url w))
  = [ {| ID := 0; URL := url; Name := string_of (name_script_h1 page);
         InStock := bool_of (stock_script page); Price := float64_zero;
         ImageURL := first_image page image_selectors;
         UpdatedAt := StaticScraper.scraped_at env |} ].
Proof.
  cbv zeta.
  destruct (static_cases ctx env url w) as [[_ [H _]]|[t [_ [E1 [E2 [_ [H _]]]]]]];
    [now left|right].
  rewrite H. f_equal. now apply static_scraped_fields.
Qed.

(** ** C6: the stock signal *)

(** C6. The value of the stock script is true exactly when none of the
    three out-of-stock selectors matches an element of the page, and false
    exactly when one of them matches; and the in_stock of every product an
    attempt upserts is that value on the page the attempt loaded, in both
    programs. *)
Theorem in_stock_iff_no_marker :
  (forall document : Page,
      (bool_of (stock_script document) = true <->
       Forall (fun sel => document sel = None) oos_markers) /\
      (bool_of (stock_script document) = false <->
       Exists (fun sel => document sel <> None) oos_markers)) /\
  (forall (env : Scraper.Attempt) (url : string) (w : World),
      Forall (fun p => InStock p = bool_of (stock_script (serve (Scraper.site env) url)))
             (upserted (events (Scraper.scrape_url env url w)))) /\
  (forall (ctx : Context) (env : StaticScraper.Attempt) (url : string) (w : World),
      Forall (fun p => InStock p
                       = bool_of (stock_script (serve (StaticScraper.load env) url)))
             (upserted (events (StaticScraper.scrape_url ctx env url w)))).
Proof.
  split; [|split].
  - intros document. unfold stock_script, oos_markers. cbn [bool_of nth].
    rewrite !Forall_cons_iff, !Exists_cons, Exists_nil.
    destruct (document _) as [e1|];
      destruct (document ".out-of-stock-msg") as [e2|];
      destruct (document ".oos-overlay") as [e3|];
      cbn [js_or js_not];
      intuition (first [discriminate | congruence | constructor]).
  - intros env url w. destruct (scraper_upserted env url w) as [-> | ->];
      repeat constructor.
  - intros ctx env url w. destruct (static_upserted ctx env url w) as [-> | ->];
      repeat constructor.
Qed.

(** ** C7: the delays around an attempt *)

Lemma rand_Intn_range (raw n : Z) : 0 < n -> 0 <= rand_Intn raw n < n.
Proof. intros H. unfold rand_Intn. apply Z.mod_pos_bound. exact H. Qed.

(** The delay before an attempt is 2 to 6 seconds and is always applied;
    the delay after it is 5 to 14 seconds and is applied only when the run
    returned no error. *)
Lemma pacing_of_attempt (env : Scraper.Attempt) (url : string) (w : World) :
  let pre := (2 + rand_Intn (Scraper.rnd_pre env) 5) * Second in
  let post := (5 + rand_Intn (Scraper.rnd_post env) 10) * Second in
  let r := Scraper.scrape_url env url w in
  2 * Second <= pre <= 6 * Second /\
  5 * Second <= post <= 14 * Second /\
  match ScraperOutcome.outcome env url with
  | Failure _ => slept (events r) = [pre]
  | Success _ _ _ => slept (events r) = [pre; post]
  end.
Proof.
  cbv zeta.
  pose proof (rand_Intn_range (Scraper.rnd_pre env) 5 ltac:(lia)) as H1.
  pose proof (rand_Intn_range (Scraper.rnd_post env) 10 ltac:(lia)) as H2.
  unfold Second. split; [lia|]. split; [lia|].
  unfold ScraperOutcome.outcome, outcome_of.
  destruct (snd (ScraperOutcome.attempt_run env url)) as [e|] eqn:E.
  - destruct (scrape_url_failure env url w e E) as [_ [_ [H _]]]. exact H.
  - destruct (scrape_url_success env url w E) as [_ [_ [H _]]]. exact H.
Qed.

(** C7, on the code. The product element of the page never becomes
    visible and the run times out: the attempt sleeps 4 seconds before it
    starts and not at all after it has failed. *)
Theorem failed_attempt_is_not_followed_by_a_delay :
  ScraperOutcome.outcome Sample.attempt_timeout Sample.urlB
    = Failure "context deadline exceeded" /\
  slept (events (Scraper.scrape_url Sample.attempt_timeout Sample.urlB Sample.w0))
    = [4 * Second] /\
  slept (events (Scraper.scrape_url Sample.attempt_ok Sample.urlB Sample.w0))
    = [4 * Second; 8 * Second].
Proof. repeat split; reflexivity. Qed.

(** ** C8: the price written *)

(** After the statement has run, the url has rows and they carry the
    values of the statement. *)
Lemma select_after_upsert (a1 a2 : string) (a3 : bool) (a4 : float64) (a5 : string)
    (a6 : Time) (t : Table) :
  let t' := exec_upsert a1 a2 a3 a4 a5 a6 t in
  select_url a1 t' <> [] /\
  Forall (fun r => name r = a2 /\ in_stock r = a3 /\ price r = a4 /\
                   image_url r = a5 /\ updated_at r = a6) (select_url a1 t').
Proof.
  cbv zeta. destruct (select_url a1 t) as [|r0 l] eqn:E.
  - rewrite select_upsert_absent by exact E. split; [discriminate|].
    repeat constructor.
  - rewrite select_upsert_present by (rewrite E; discriminate). rewrite E.
    split; [discriminate|]. apply Forall_forall. intros r Hin.
    apply in_map_iff in Hin. destruct Hin as [r' [<- _]]. repeat split.
Qed.

(** C8. Every product an attempt hands to updateProduct has the zero
    price, in both programs; and when the call of an attempt returned no
    error, the url has a record and its price is zero, whatever price was
    stored before. *)
Theorem price_written_is_zero :
  (forall (env : Scraper.Attempt) (url : string) (w : World),
      Forall (fun p => Price p = float64_zero)
             (upserted (events (Scraper.scrape_url env url w)))) /\
  (forall (ctx : Context) (env : StaticScraper.Attempt) (url : string) (w : World),
      Forall (fun p => Price p = float64_zero)
             (upserted (events (StaticScraper.scrape_url ctx env url w)))) /\
  (forall (env : Scraper.Attempt) (url : string) (w : World) (p : Product),
      let r := Scraper.scrape_url env url w in
      In (p, None) (upsert_calls (events r)) ->
      select_url url (products (db (world r))) <> [] /\
      Forall (fun row => price row = float64_zero)
             (select_url url (products (db (world r))))).
Proof.
  split; [|split].
  - intros env url w. destruct (scraper_upserted env url w) as [-> | ->];
      repeat constructor.
  - intros ctx env url w. destruct (static_upserted ctx env url w) as [-> | ->];
      repeat constructor.
  - intros env url w p. cbv zeta. intros Hin.
    destruct (snd (ScraperOutcome.attempt_run env url)) as [e|] eqn:E.
    + destruct (scrape_url_failure env url w e E) as [_ [_ [_ [_ [_ [_ [_ [_ H]]]]]]]].
      rewrite H in Hin. destruct Hin.
    + destruct (scrape_url_success env url w E) as [Hd [_ [_ [_ [_ [_ [_ H]]]]]]].
      rewrite H in Hin. destruct Hin as [Hin|[]]. injection Hin as Hp He.
      rewrite Hd, (updateProduct_nil _ _ He).
      destruct (select_after_upsert url (Name (ScraperOutcome.scraped env url))
                  (InStock (ScraperOutcome.scraped env url)) float64_zero
                  (ImageURL (ScraperOutcome.scraped env url))
                  (UpdatedAt (ScraperOutcome.scraped env url)) (products (db w)))
        as [Hne Hall].
      split; [exact Hne|].
      eapply Forall_impl; [|exact Hall]. intros row [_ [_ [Hp' _]]]. exact Hp'.
Qed.

(** ** C9: the diagnostic capture *)

(** C9. An attempt with outcome Success has no capture event; an attempt
    with outcome Failure, whatever the screenshot session, the screenshot
    and the file write do, ends by reporting the error of its own run,
    writes nothing to the database, and the cycle that loaded its list
    still returns nil. *)
Theorem capture_only_on_failure_and_swallowed :
  (forall (env : Scraper.Attempt) (url : string) (w : World) (n : string) (s : bool)
          (i : string),
      ScraperOutcome.outcome env url = Success n s i ->
      filter is_capture (events (Scraper.scrape_url env url w)) = []) /\
  (forall (env : Scraper.Attempt) (url : string) (w : World) (e : error),
      ScraperOutcome.outcome env url = Failure e ->
      let r := Scraper.scrape_url env url w in
      last (events r) (Logged "")
      = Logged ("Failed to load or scrape page " ++ url ++ ": " ++ e) /\
      filter is_capture (events r) <> [] /\
      db (world r) = db w /\
      upserted (events r) = []) /\
  (forall (env : Scraper.Cycle) (ctx : Context) (w : World) (data : string)
          (urls : list string),
      Scraper.ReadFile env "urls.json" = Ok data ->
      Scraper.Unmarshal env data = Ok urls ->
      val (Scraper.scrapeProducts env ctx w) = None).
Proof.
  split; [|split].
  - intros env url w n s i H.
    assert (snd (ScraperOutcome.attempt_run env url) = None) as E.
    { unfold ScraperOutcome.outcome, outcome_of in H.
      destruct (snd (ScraperOutcome.attempt_run env url)); [discriminate|reflexivity]. }
    destruct (scrape_url_success env url w E) as [_ [_ [_ [_ [_ [_ [Hc _]]]]]]]. exact Hc.
  - intros env url w e H. apply outcome_failure in H.
    destruct (scrape_url_failure env url w e H)
      as [Hd [Hu [_ [Hl [_ [_ [_ [Hc _]]]]]]]].
    cbv zeta. auto.
  - intros env ctx w data urls Hr Hu. unfold Scraper.scrapeProducts.
    rewrite Hr, Hu. reflexivity.
Qed.

(** ** C10: the image *)

(** The image script returns the src of the element of the first selector
    that matches, or the empty string when none matches. *)
Lemma first_image_first_match (document : Page) (selectors : list string) :
  (exists before sel after img,
      selectors = (before ++ sel :: after)%list /\
      Forall (fun s => document s = None) before /\
      document sel = Some img /\
      first_image document selectors = src img) \/
  (Forall (fun s => document s = None) selectors /\
   first_image document selectors = "").
Proof.
  induction selectors as [|s l IH]; simpl.
  - right. split; [constructor|reflexivity].
  - destruct (document s) as [img|] eqn:E.
    + left. exists [], s, l, img. repeat split; [constructor|exact E].
    + destruct IH as [[before [sel [after [img [H1 [H2 [H3 H4]]]]]]]|[H1 H2]].
      * left. exists (s :: before), sel, after, img. subst l.
        repeat split; [constructor; assumption|exact H3|exact H4].
      * right. split; [constructor; assumption|exact H2].
Qed.

(** C10, as the code has it. In main/main.go the image_url of every
    product upserted is the value of the image script on the page loaded:
    the src of the element of the first of the five candidate selectors
    that matches, or the empty string when none matches.  In the urls.json
    scraper no image is looked for and the image_url of every product
    upserted is the empty string. *)
Theorem image_url_of_upsert :
  (forall (ctx : Context) (env : StaticScraper.Attempt) (url : string) (w : World),
      let page := serve (StaticScraper.load env) url in
      Forall (fun p => ImageURL p = first_image page image_selectors)
             (upserted (events (StaticScraper.scrape_url ctx env url w))) /\
      ((exists before sel after img,
           image_selectors = (before ++ sel :: after)%list /\
           Forall (fun s => page s = None) before /\
           page sel = Some img /\
           first_image page image_selectors = src img) \/
       (Forall (fun s => page s = None) image_selectors /\
        first_image page image_selectors = ""))) /\
  (forall (env : Scraper.Attempt) (url : string) (w : World),
      Forall (fun p => ImageURL p = "")
             (upserted (events (Scraper.scrape_url env url w)))).
Proof.
  split.
  - intros ctx env url w. cbv zeta. split; [|apply first_image_first_match].
    destruct (static_upserted ctx env url w) as [-> | ->]; repeat constructor.
  - intros env url w. destruct (scraper_upserted env url w) as [-> | ->];
      repeat constructor.
Qed.

(** C10, as the claim states it, fails on the urls.json scraper: the page
    has an element for the first candidate selector, the attempt succeeds,
    and the product upserted has an empty image_url. *)
Lemma image_is_not_extracted :
  Sample.page_widget (nth 0 image_selectors "")
    = Some {| textContent := ""; src := "https://shop.example/widget.png" |} /\
  ScraperOutcome.outcome Sample.attempt_ok Sample.urlA = Success "Widget" true "" /\
  map ImageURL (upserted (events (Scraper.scrape_url Sample.attempt_ok Sample.urlA Sample.w0)))
    = [""] /\
  map image_url
      (rows (products (db (world (Scraper.scrape_url Sample.attempt_ok Sample.urlA
                                    Sample.w0)))))
    = [""].
Proof. repeat split; reflexivity. Qed.

(** ** The theorems at sample inputs *)

(** Three upserts of [urlA] on a table that already has a priced record
    for it. *)
Lemma upserts_one_record_witness :
  let ps := [ Sample.product_v "Widget" false float64_zero 2;
              Sample.product_v "Gadget" true float64_zero 3 ] in
  let p1 := Sample.product_v "Widget" true float64_zero 1 in
  exists r1 rN,
    select_url Sample.urlA (products (fst (updateProduct (db Sample.w_priced) p1))) = [r1] /\
    select_url Sample.urlA (products (fst (upserts (db Sample.w_priced) (p1 :: ps)))) = [rN] /\
    id rN = id r1 /\
    row_matches rN (last (p1 :: ps) p1).
Proof.
  cbv zeta.
  apply (upserts_one_record_last_write_first_id (db Sample.w_priced) Sample.urlA).
  - unfold unique_url. simpl. constructor; [intros []|constructor].
  - repeat constructor.
  - simpl. repeat constructor.
Defined.

(** The timed-out attempt on [urlB], alone and in the cycle over [urlA;
    urlB]. *)
Lemma failure_makes_no_upsert_witness :
  (upserted (events (Scraper.scrape_url Sample.attempt_timeout Sample.urlB Sample.w0)) = [] /\
   db (world (Scraper.scrape_url Sample.attempt_timeout Sample.urlB Sample.w0))
   = db Sample.w0) /\
  (~ In Sample.urlB
        (map URL (upserted (events (Scraper.scrapeProducts Sample.cycle_AB Background
                                      Sample.w0)))) /\
   select_url Sample.urlB
     (products (db (world (Scraper.scrapeProducts Sample.cycle_AB Background Sample.w0))))
   = select_url Sample.urlB (products (db Sample.w0))).
Proof.
  split.
  - apply (proj1 failure_makes_no_upsert Sample.attempt_timeout Sample.urlB Sample.w0
             "context deadline exceeded").
    reflexivity.
  - apply (proj1 (proj2 failure_makes_no_upsert) Sample.cycle_AB Background Sample.w0
             "[...]" [Sample.urlA; Sample.urlB] Sample.urlB).
    + reflexivity.
    + reflexivity.
    + intros [|[|[|j]]] H; simpl in H; try discriminate.
      exists "context deadline exceeded". reflexivity.
Defined.

(** The static-list scraper on the context of [main], with an error in
    the evaluation of the stock script. *)
Lemma outcome_is_first_run_error_witness :
  StaticOutcome.outcome Sample.static_eval_error Sample.urlA (tabs Sample.w0 2)
    = Failure "exception in script" /\
  upserted (events (StaticScraper.scrape_url Sample.main_ctx Sample.static_eval_error
                      Sample.urlA Sample.w0)) = [].
Proof.
  exact (proj2 outcome_is_first_run_error Sample.main_ctx 2%nat Sample.static_eval_error
           Sample.urlA Sample.w0 eq_refl).
Defined.

(** A cycle without its urls.json, and the process after three cycles. *)
Lemma cycle_error_is_load_error_witness :
  val (Scraper.scrapeProducts Sample.cycle_missing Background Sample.w0)
    = Some "open urls.json: no such file or directory" /\
  last (events (Scraper.iteration Sample.cycle_missing Background Sample.w0)) (Logged "")
    = Logged "Error in scrape cycle: open urls.json: no such file or directory" /\
  exists r, Scraper.main Sample.start_ok (fun _ => Sample.cycle_missing) 3 Sample.w0
            = Running r.
Proof.
  split; [|split].
  - apply (proj1 cycle_error_is_load_error Sample.cycle_missing Background Sample.w0).
    left. reflexivity.
  - apply (proj1 (proj2 cycle_error_is_load_error) Sample.cycle_missing Background
             Sample.w0 "open urls.json: no such file or directory").
    reflexivity.
  - apply (proj1 (proj2 (proj2 cycle_error_is_load_error))); reflexivity.
Defined.

(** A successful attempt on [urlA] in the world that stores a priced
    record for it. *)
Lemma price_written_is_zero_witness :
  select_url Sample.urlA
    (products (db (world (Scraper.scrape_url Sample.attempt_ok Sample.urlA
                            Sample.w_priced)))) <> [] /\
  Forall (fun row => price row = float64_zero)
    (select_url Sample.urlA
       (products (db (world (Scraper.scrape_url Sample.attempt_ok Sample.urlA
                               Sample.w_priced))))).
Proof.
  apply (proj2 (proj2 price_written_is_zero) Sample.attempt_ok Sample.urlA Sample.w_priced
           (ScraperOutcome.scraped Sample.attempt_ok Sample.urlA)).
  left. reflexivity.
Defined.

(** A successful attempt, and a failed one whose screenshot fails too. *)
Lemma capture_only_on_failure_witness :
  filter is_capture (events (Scraper.scrape_url Sample.attempt_ok Sample.urlA Sample.w0)) = [] /\
  (last (events (Scraper.scrape_url Sample.attempt_eval_error Sample.urlA Sample.w0))
        (Logged "")
   = Logged ("Failed to load or scrape page " ++ Sample.urlA ++ ": " ++ "exception in script") /\
   filter is_capture
     (events (Scraper.scrape_url Sample.attempt_eval_error Sample.urlA Sample.w0)) <> [] /\
   db (world (Scraper.scrape_url Sample.attempt_eval_error Sample.urlA Sample.w0))
   = db Sample.w0 /\
   upserted (events (Scraper.scrape_url Sample.attempt_eval_error Sample.urlA Sample.w0))
   = []).
Proof.
  split.
  - apply (proj1 capture_only_on_failure_and_swallowed Sample.attempt_ok Sample.urlA
             Sample.w0 "Widget" true "").
    reflexivity.
  - apply (proj1 (proj2 capture_only_on_failure_and_swallowed) Sample.attempt_eval_error
             Sample.urlA Sample.w0 "exception in script").
    reflexivity.
Defined.

(** * More properties of the code *)

(** ** What every cycle keeps of the table *)

Lemma map_key_update (a1 a2 : string) (a3 : bool) (a4 : float64) (a5 : string)
    (a6 : Time) (l : list Row) :
  map row_key (map (fun r => if conflict a1 r then do_update a2 a3 a4 a5 a6 r else r) l)
  = map row_key l.
Proof.
  induction l as [|r l IH]; simpl; [reflexivity|].
  rewrite IH. now destruct (conflict a1 r).
Qed.

Lemma extends_refl (t : Table) : extends t t.
Proof. exists []. now rewrite app_nil_r. Qed.

Lemma extends_trans (t1 t2 t3 : Table) : extends t1 t2 -> extends t2 t3 -> extends t1 t3.
Proof.
  intros [m1 H1] [m2 H2]. exists (m1 ++ m2)%list. now rewrite H2, H1, app_assoc.
Qed.

Lemma updateProduct_extends (d : DB) (p : Product) :
  extends (products d) (products (fst (updateProduct d p))) /\
  (List.length (rows (products (fst (updateProduct d p))))
   <= S (List.length (rows (products d))))%nat.
Proof.
  unfold updateProduct, db_Exec.
  assert (extends (products d)
            (exec_upsert (URL p) (Name p) (InStock p) (Price p) (ImageURL p)
               (UpdatedAt p) (products d)) /\
          (List.length (rows (exec_upsert (URL p) (Name p) (InStock p) (Price p)
                                (ImageURL p) (UpdatedAt p) (products d)))
           <= S (List.length (rows (products d))))%nat) as H.
  { unfold exec_upsert, extends.
    destruct (existsb (conflict (URL p)) (rows (products d))); simpl.
    - split; [exists []; now rewrite map_key_update, app_nil_r|].
      rewrite length_map. lia.
    - split; [eexists; now rewrite map_app|].
      rewrite length_app. simpl. lia. }
  destruct (faults d) as [|[e|] rest]; simpl; try exact H.
  split; [apply extends_refl|lia].
Qed.

(** updateProduct removes no row and changes the id and the url of none:
    the rows that were there are still there, in place, and at most one
    row is added at the end. *)
Theorem updateProduct_keeps_rows (d : DB) (p : Product) :
  let t := products d in
  let t' := products (fst (updateProduct d p)) in
  extends t t' /\ (List.length (rows t') <= S (List.length (rows t)))%nat.
Proof. cbv zeta. apply updateProduct_extends. Qed.

Section DatabaseSteps.
Variable R : DB -> DB -> Prop.
Hypothesis R_refl : forall d, R d d.
Hypothesis R_trans : forall d1 d2 d3, R d1 d2 -> R d2 d3 -> R d1 d3.
Hypothesis R_update : forall d p, R d (fst (updateProduct d p)).

Lemma steps_ret {A} (a : A) : db_steps R (ret a).
Proof. intros w. apply R_refl. Qed.

Lemma steps_emit (e : Event) : db_steps R (emit e).
Proof. intros w. apply R_refl. Qed.

Lemma steps_bind {A B} (m : M A) (k : A -> M B) :
  db_steps R m -> (forall a, db_steps R (k a)) -> db_steps R (bind m k).
Proof.
  intros Hm Hk w. cbn [bind world]. eapply R_trans; [apply Hm|apply Hk].
Qed.

Lemma steps_scrape_url (env : Scraper.Attempt) (url : string) :
  db_steps R (Scraper.scrape_url env url).
Proof.
  intros w. destruct (scrape_url_cases env url w) as [[e [_ [H _]]]|[_ [H _]]];
    rewrite H; auto.
Qed.

Lemma steps_scrape_urls (attempts : nat -> Scraper.Attempt) (urls : list string) :
  forall i, db_steps R (Scraper.scrape_urls attempts i urls).
Proof.
  induction urls as [|u urls IH]; intros i; simpl.
  - apply steps_ret.
  - apply steps_bind; [apply steps_scrape_url|intros _; apply IH].
Qed.

Lemma steps_scrapeProducts (env : Scraper.Cycle) (ctx : Context) :
  db_steps R (Scraper.scrapeProducts env ctx).
Proof.
  unfold Scraper.scrapeProducts.
  destruct (Scraper.ReadFile env "urls.json") as [data|e].
  - destruct (Scraper.Unmarshal env data) as [urls|e].
    + apply steps_bind; [apply steps_emit|intros _].
      apply steps_bind; [apply steps_scrape_urls|intros _; apply steps_ret].
    + apply steps_bind; [apply steps_emit|intros _; apply steps_ret].
  - apply steps_bind; [apply steps_emit|intros _; apply steps_ret].
Qed.

Lemma steps_loop (n : nat) (cycles : nat -> Scraper.Cycle) (ctx : Context) :
  forall k, db_steps R (Scraper.loop n cycles k ctx).
Proof.
  induction n as [|n IH]; intros k; simpl.
  - apply steps_ret.
  - apply steps_bind; [|intros _; apply IH].
    unfold Scraper.iteration. apply steps_bind; [apply steps_scrapeProducts|].
    intros [e|]; [apply steps_emit|apply steps_ret].
Qed.

Lemma steps_static_url (ctx : Context) (env : StaticScraper.Attempt) (url : string) :
  db_steps R (StaticScraper.scrape_url ctx env url).
Proof.
  intros w. destruct (static_cases ctx env url w) as [[H _]|[t [_ [_ [_ [H _]]]]]];
    rewrite H; auto.
Qed.

Lemma steps_static_urls (ctx : Context) (attempts : nat -> StaticScraper.Attempt)
    (urls : list string) :
  forall i, db_steps R (StaticScraper.scrape_urls ctx attempts i urls).
Proof.
  induction urls as [|u urls IH]; intros i; simpl.
  - apply steps_ret.
  - apply steps_bind; [apply steps_static_url|intros _; apply IH].
Qed.

Lemma steps_static_loop (n : nat) (cycles : nat -> nat -> StaticScraper.Attempt)
    (ctx : Context) :
  forall k, db_steps R (StaticScraper.loop n cycles k ctx).
Proof.
  induction n as [|n IH]; intros k; simpl.
  - apply steps_ret.
  - apply steps_bind; [|intros _; apply IH].
    unfold StaticScraper.iteration, StaticScraper.scrapeProducts.
    apply steps_bind.
    + apply steps_bind; [apply steps_emit|intros _].
      apply steps_bind; [apply steps_static_urls|intros _; apply steps_ret].
    + intros err. apply steps_bind; [|intros _; apply steps_emit].
      destruct err as [e|]; [apply steps_emit|apply steps_ret].
Qed.
End DatabaseSteps.

(** Any number of cycles of either program keeps the unique constraint on
    url: a table with at most one row per url still has at most one row
    per url, whatever the sites, the list and the connection do. *)
Theorem cycles_keep_unique_url :
  (forall (n : nat) (cycles : nat -> Scraper.Cycle) (k : nat) (ctx : Context) (w : World),
      unique_url (products (db w)) ->
      unique_url (products (db (world (Scraper.loop n cycles k ctx w))))) /\
  (forall (n : nat) (cycles : nat -> nat -> StaticScraper.Attempt) (k : nat)
          (ctx : Context) (w : World),
      unique_url (products (db w)) ->
      unique_url (products (db (world (StaticScraper.loop n cycles k ctx w))))).
Proof.
  set (R := fun d d' : DB => unique_url (products d) -> unique_url (products d')).
  assert (forall d, R d d) as Hr by (intros d H; exact H).
  assert (forall d1 d2 d3, R d1 d2 -> R d2 d3 -> R d1 d3) as Ht
    by (intros d1 d2 d3 H1 H2 H; auto).
  assert (forall d p, R d (fst (updateProduct d p))) as Hu
    by (intros d p H; now apply updateProduct_unique).
  split.
  - intros n cycles k ctx w. exact (steps_loop R Hr Ht Hu n cycles ctx k w).
  - intros n cycles k ctx w. exact (steps_static_loop R Hr Ht Hu n cycles ctx k w).
Qed.

(** Any number of cycles of either program deletes no record and changes
    the id and url of none: the rows stored before are still there, in
    place. *)
Theorem cycles_never_delete :
  (forall (n : nat) (cycles : nat -> Scraper.Cycle) (k : nat) (ctx : Context) (w : World),
      extends (products (db w)) (products (db (world (Scraper.loop n cycles k ctx w))))) /\
  (forall (n : nat) (cycles : nat -> nat -> StaticScraper.Attempt) (k : nat)
          (ctx : Context) (w : World),
      extends (products (db w))
        (products (db (world (StaticScraper.loop n cycles k ctx w))))).
Proof.
  set (R := fun d d' : DB => extends (products d) (products d')).
  assert (forall d, R d d) as Hr by (intros d; apply extends_refl).
  assert (forall d1 d2 d3, R d1 d2 -> R d2 d3 -> R d1 d3) as Ht
    by (intros d1 d2 d3; apply extends_trans).
  assert (forall d p, R d (fst (updateProduct d p))) as Hu.
  { intros d p. destruct (updateProduct_extends d p) as [H _]. exact H. }
  split.
  - intros n cycles k ctx w. exact (steps_loop R Hr Ht Hu n cycles ctx k w).
  - intros n cycles k ctx w. exact (steps_static_loop R Hr Ht Hu n cycles ctx k w).
Qed.

(** ** Upserts and other urls *)

(** An upsert of one url leaves the records of every other url exactly as
    they were, whether the statement runs or the connection fails. *)
Theorem updateProduct_leaves_other_urls (d : DB) (p : Product) (u : string) :
  u <> URL p ->
  select_url u (products (fst (updateProduct d p))) = select_url u (products d).
Proof. intros H. apply updateProduct_other. congruence. Qed.

(** ** The contexts and deadlines of an attempt *)

Ltac observe_contexts :=
  cbn [opened cancelled timeouts runs logged slept upserted flat_map app cid tab
       Nat.add].

(** The contexts of a failed attempt: three for the page, three for the
    screenshot, each group cancelled innermost first; both runs act on a
    context with a deadline. *)
Lemma scrape_url_failure_contexts (env : Scraper.Attempt) (url : string) (w : World)
    (e : error) :
  snd (ScraperOutcome.attempt_run env url) = Some e ->
  let r := Scraper.scrape_url env url w in
  let n := next_ctx w in
  opened (events r) = [n; S n; S (S n); (3 + n)%nat; (4 + n)%nat; (5 + n)%nat] /\
  cancelled (events r) = [S (S n); S n; n; (5 + n)%nat; (4 + n)%nat; (3 + n)%nat] /\
  runs (events r) = [(S (S n), Scraper.page_actions url); ((5 + n)%nat, [FullScreenshot 90])] /\
  timeouts (events r) = [(S (S n), 60 * Second); ((5 + n)%nat, 10 * Second)].
Proof.
  destruct w as [d n tb]. intros H.
  unfold Scraper.scrape_url, Scraper.capture. step. rewrite ?Nat.eqb_refl.
  fold (ScraperOutcome.attempt_run env url).
  destruct (ScraperOutcome.attempt_run env url) as [s o]. simpl in H. subst o. step.
  rewrite ?Nat.eqb_refl.
  destruct (run_actions (Scraper.shot env) about_blank _ _) as [s' [e'|]]; step;
    [|destruct (Scraper.write_err env); step]; observe_contexts;
    repeat split; reflexivity.
Qed.

Lemma scrape_url_success_contexts (env : Scraper.Attempt) (url : string) (w : World) :
  snd (ScraperOutcome.attempt_run env url) = None ->
  let r := Scraper.scrape_url env url w in
  let n := next_ctx w in
  opened (events r) = [n; S n; S (S n)] /\
  cancelled (events r) = [S (S n); S n; n] /\
  runs (events r) = [(S (S n), Scraper.page_actions url)] /\
  timeouts (events r) = [(S (S n), 60 * Second)].
Proof.
  destruct w as [d n tb]. intros H.
  unfold Scraper.scrape_url, Scraper.persist. step. rewrite ?Nat.eqb_refl.
  fold (ScraperOutcome.attempt_run env url).
  destruct (ScraperOutcome.attempt_run env url) as [s o]. simpl in H. subst o. step.
  destruct (snd (updateProduct d _)); step; observe_contexts; repeat split; reflexivity.
Qed.

(** In the urls.json scraper every browser run acts on a context with a
    deadline: 60 seconds for the run of the page, 10 seconds for the run
    of the screenshot, and there is no other run. *)
Theorem every_run_has_a_deadline (env : Scraper.Attempt) (url : string) (w : World) :
  let r := Scraper.scrape_url env url w in
  let c := (2 + next_ctx w)%nat in
  let c' := (5 + next_ctx w)%nat in
  (runs (events r) = [(c, Scraper.page_actions url)] /\
   timeouts (events r) = [(c, 60 * Second)]) \/
  (runs (events r) = [(c, Scraper.page_actions url); (c', [FullScreenshot 90])] /\
   timeouts (events r) = [(c, 60 * Second); (c', 10 * Second)]).
Proof.
  cbv zeta. destruct (snd (ScraperOutcome.attempt_run env url)) as [e|] eqn:E.
  - right. destruct (scrape_url_failure_contexts env url w e E) as [_ [_ [H1 H2]]].
    split; assumption.
  - left. destruct (scrape_url_success_contexts env url w E) as [_ [_ [H1 H2]]].
    split; assumption.
Qed.

Lemma opened_app (t1 t2 : list Event) : opened (t1 ++ t2) = (opened t1 ++ opened t2)%list.
Proof. apply flat_map_app. Qed.

Lemma cancelled_app (t1 t2 : list Event) :
  cancelled (t1 ++ t2) = (cancelled t1 ++ cancelled t2)%list.
Proof. apply flat_map_app. Qed.

Lemma balanced_scrape_url (env : Scraper.Attempt) (url : string) (w : World) :
  Permutation (opened (events (Scraper.scrape_url env url w)))
              (cancelled (events (Scraper.scrape_url env url w))).
Proof.
  destruct (snd (ScraperOutcome.attempt_run env url)) as [e|] eqn:E.
  - destruct (scrape_url_failure_contexts env url w e E) as [H1 [H2 _]].
    rewrite H1, H2.
    change (Permutation
              ([next_ctx w; S (next_ctx w); S (S (next_ctx w))]
               ++ [(3 + next_ctx w)%nat; (4 + next_ctx w)%nat; (5 + next_ctx w)%nat])
              (rev [next_ctx w; S (next_ctx w); S (S (next_ctx w))]
               ++ rev [(3 + next_ctx w)%nat; (4 + next_ctx w)%nat; (5 + next_ctx w)%nat])).
    apply Permutation_app; apply Permutation_rev.
  - destruct (scrape_url_success_contexts env url w E) as [H1 [H2 _]].
    rewrite H1, H2.
    change (Permutation [next_ctx w; S (next_ctx w); S (S (next_ctx w))]
              (rev [next_ctx w; S (next_ctx w); S (S (next_ctx w))])).
    apply Permutation_rev.
Qed.

Lemma balanced_scrape_urls (attempts : nat -> Scraper.Attempt) (urls : list string) :
  forall (i : nat) (w : World),
    Permutation (opened (events (Scraper.scrape_urls attempts i urls w)))
                (cancelled (events (Scraper.scrape_urls attempts i urls w))).
Proof.
  induction urls as [|u urls IH]; intros i w.
  - constructor.
  - cbn [Scraper.scrape_urls bind events]. rewrite opened_app, cancelled_app.
    apply Permutation_app; [apply balanced_scrape_url|apply IH].
Qed.

Lemma balanced_scrapeProducts (env : Scraper.Cycle) (ctx : Context) (w : World) :
  Permutation (opened (events (Scraper.scrapeProducts env ctx w)))
              (cancelled (events (Scraper.scrapeProducts env ctx w))).
Proof.
  unfold Scraper.scrapeProducts.
  destruct (Scraper.ReadFile env "urls.json") as [data|e]; [|constructor].
  destruct (Scraper.Unmarshal env data) as [urls|e]; [|constructor].
  cbn [bind ret log_Printf emit events world val].
  rewrite !opened_app, !cancelled_app. simpl. rewrite !app_nil_r.
  apply balanced_scrape_urls.
Qed.

(** Over any number of cycles of the urls.json scraper, the contexts
    cancelled are exactly the contexts opened in the loop: every allocator,
    browser context and timeout context an attempt opens is cancelled, on
    the success path and on the failure path alike. *)
Theorem every_context_is_cancelled (n : nat) (cycles : nat -> Scraper.Cycle) (k : nat)
    (ctx : Context) (w : World) :
  Permutation (opened (events (Scraper.loop n cycles k ctx w)))
              (cancelled (events (Scraper.loop n cycles k ctx w))).
Proof.
  revert k w. induction n as [|n IH]; intros k w; [constructor|].
  cbn [Scraper.loop bind events]. rewrite opened_app, cancelled_app.
  apply Permutation_app; [|apply IH].
  unfold Scraper.iteration. cbn [bind events world val].
  rewrite opened_app, cancelled_app.
  destruct (val (Scraper.scrapeProducts (cycles k) ctx w)) as [e|];
    cbn [log_Printf emit ret events opened cancelled flat_map app];
    rewrite !app_nil_r; apply balanced_scrapeProducts.
Qed.

(** ** A database error inside an attempt *)

(** When the run of an attempt succeeds and updateProduct returns an
    error, the table is left as it was, the error is logged as a database
    error, and the attempt goes on to its closing delay like a stored
    one: the error does not end the cycle. *)
Theorem database_error_is_logged_and_passed (env : Scraper.Attempt) (url : string)
    (w : World) (e : error) :
  snd (ScraperOutcome.attempt_run env url) = None ->
  snd (updateProduct (db w) (ScraperOutcome.scraped env url)) = Some e ->
  let r := Scraper.scrape_url env url w in
  products (db (world r)) = products (db w) /\
  logged (events r)
  = [ "Navigating to: " ++ url;
      "Product: " ++ Name (ScraperOutcome.scraped env url);
      "In Stock: " ++ btoa (InStock (ScraperOutcome.scraped env url));
      "Database error: " ++ e ] /\
  slept (events r)
  = [ (2 + rand_Intn (Scraper.rnd_pre env) 5) * Second;
      (5 + rand_Intn (Scraper.rnd_post env) 10) * Second ].
Proof.
  destruct w as [d n tb]. unfold ScraperOutcome.scraped.
  unfold Scraper.scrape_url, Scraper.persist. step. rewrite ?Nat.eqb_refl.
  fold (ScraperOutcome.attempt_run env url).
  destruct (ScraperOutcome.attempt_run env url) as [s o]. cbn [fst snd]. intros -> He.
  step. rewrite He. step. observe_contexts.
  split; [now apply updateProduct_err with (e := e)|]. split; reflexivity.
Qed.

(** ** The order of the upserts of a cycle *)

Lemma scrape_urls_upserted (attempts : nat -> Scraper.Attempt) (urls : list string) :
  forall (i : nat) (w : World),
    map URL (upserted (events (Scraper.scrape_urls attempts i urls w)))
    = succeeded attempts i urls.
Proof.
  induction urls as [|u urls IH]; intros i w; [reflexivity|].
  cbn [Scraper.scrape_urls bind events world succeeded].
  rewrite upserted_app, map_app, IH.
  destruct (scrape_url_cases (attempts i) u w) as [[e [E [_ H]]]|[E [_ H]]];
    rewrite H, E; reflexivity.
Qed.

(** A cycle calls updateProduct once for each url whose run returned no
    error and for no other, in the order of the list in urls.json (a url
    listed twice is upserted twice). *)
Theorem upserts_follow_the_list (env : Scraper.Cycle) (ctx : Context) (w : World)
    (data : string) (urls : list string) :
  Scraper.ReadFile env "urls.json" = Ok data ->
  Scraper.Unmarshal env data = Ok urls ->
  map URL (upserted (events (Scraper.scrapeProducts env ctx w)))
  = succeeded (Scraper.attempts env) 0 urls.
Proof.
  intros Hr Hu. unfold Scraper.scrapeProducts. rewrite Hr, Hu.
  cbn [bind ret log_Printf emit events world val].
  rewrite !upserted_app. simpl. rewrite app_nil_r. apply scrape_urls_upserted.
Qed.

(** ** Cycles with nothing to scrape *)

Lemma idle_cycle (env : Scraper.Cycle) (ctx : Context) (w : World) :
  idle env ->
  let r := Scraper.iteration env ctx w in
  world r = w /\ events r <> [] /\ forallb is_log (events r) = true.
Proof.
  unfold idle, Scraper.iteration, Scraper.scrapeProducts.
  destruct (Scraper.ReadFile env "urls.json") as [data|e].
  - destruct (Scraper.Unmarshal env data) as [urls|e].
    + intros ->. cbv zeta. simpl. destruct w. repeat split; discriminate.
    + intros _. cbv zeta. simpl. destruct w. repeat split; discriminate.
  - intros _. cbv zeta. simpl. destruct w. repeat split; discriminate.
Qed.

(** With the sleep between cycles commented out, a list that cannot be
    loaded or is empty makes the loop of the urls.json scraper spin: each
    of the n iterations only logs (at least one line each) and the world
    is unchanged, so there is no sleep, no browser and no upsert. *)
Theorem idle_cycles_spin (n : nat) (cycles : nat -> Scraper.Cycle) (k : nat)
    (ctx : Context) (w : World) :
  (forall j, idle (cycles j)) ->
  let r := Scraper.loop n cycles k ctx w in
  world r = w /\
  forallb is_log (events r) = true /\
  (n <= List.length (events r))%nat.
Proof.
  intros Hidle. cbv zeta. revert k w.
  induction n as [|n IH]; intros k w; [repeat split; simpl; lia|].
  cbn [Scraper.loop bind events world].
  destruct (idle_cycle (cycles k) ctx w (Hidle k)) as [H1 [H2 H3]].
  rewrite H1. destruct (IH (S k) w) as [K1 [K2 K3]].
  split; [exact K1|]. split.
  - rewrite forallb_app, H3, K2. reflexivity.
  - rewrite length_app.
    destruct (events (Scraper.iteration (cycles k) ctx w)); [contradiction|]. simpl. lia.
Qed.

(** ** The pacing of main/main.go *)

(** A cycle of main/main.go never returns an error, and its iteration
    ends with the 5-minute sleep; before it there is one 10-second sleep
    exactly when the product was handed to updateProduct, and none
    otherwise. *)
Theorem static_cycle_pacing (attempts : nat -> StaticScraper.Attempt) (ctx : Context)
    (w : World) :
  let r := StaticScraper.iteration attempts ctx w in
  val (StaticScraper.scrapeProducts attempts ctx w) = None /\
  ((upserted (events r) = [] /\ slept (events r) = [5 * Minute]) \/
   (List.length (upserted (events r)) = 1%nat /\
    slept (events r) = [10 * Second; 5 * Minute])).
Proof.
  cbv zeta. split; [reflexivity|].
  unfold StaticScraper.iteration, StaticScraper.scrapeProducts,
    StaticScraper.scrape_urls, StaticScraper.urls.
  cbn [bind ret log_Printf time_Sleep emit events world val].
  match goal with
  | |- context [StaticScraper.scrape_url ctx ?a ?u ?w0] =>
      destruct (static_cases ctx a u w0) as [[_ [Hu Hs]]|[t [_ [_ [_ [_ [Hu Hs]]]]]]];
      set (r0 := StaticScraper.scrape_url ctx a u w0) in *
  end.
  - left. rewrite !upserted_app, !slept_app, Hu, Hs. split; reflexivity.
  - right. rewrite !upserted_app, !slept_app, Hu, Hs. split; reflexivity.
Qed.

(** ** The start of main *)


(** ** The read API *)

(** The writer as the middleware hands it to the handler. *)
Lemma serve_steps (env : API.Env) (t : Table) (r : API.Request) :
  API.serve env t r
  = API.finish
      (if String.eqb (API.Method r) "OPTIONS"
       then {| API.header := API.cors_headers;
               API.sent := Some (200, API.cors_headers);
               API.body := "" |}
       else API.products_handler env t r
              {| API.header := API.cors_headers; API.sent := None; API.body := "" |}).
Proof. reflexivity. Qed.

(** [http.Error] on that writer. *)
Lemma error_steps (msg : string) (code : Z) :
  API.finish
    (API.http_Error msg code
       {| API.header := API.cors_headers; API.sent := None; API.body := "" |})
  = {| API.status := code;
       API.headers := (API.cors_headers ++ API.text_headers)%list;
       API.payload := msg ++ API.newline |}.
Proof. reflexivity. Qed.

(** The last two statements of the handler on that writer. *)
Lemma encode_steps (env : API.Env) (s : option (list Product)) :
  API.finish
    (match API.Encode env s with
     | Ok text =>
         API.Write text
           (API.Header_Set "Content-Type" "application/json"
              {| API.header := API.cors_headers; API.sent := None; API.body := "" |})
     | Err _ =>
         API.Header_Set "Content-Type" "application/json"
           {| API.header := API.cors_headers; API.sent := None; API.body := "" |}
     end)
  = {| API.status := 200;
       API.headers := (API.cors_headers ++ [("Content-Type", "application/json")])%list;
       API.payload := API.encoded env s |}.
Proof. unfold API.encoded. destruct (API.Encode env s); reflexivity. Qed.

Lemma scan_rows_some (rs : list Row) :
  forall (errs : list (option error)) (l : list Product),
    Forall (fun o => o = None) errs ->
    API.scan_rows rs errs (Some l) = Ok (Some (l ++ map API.Scan rs)%list).
Proof.
  induction rs as [|r rs IH]; intros errs l He; simpl.
  - now rewrite app_nil_r.
  - destruct errs as [|[e|] errs].
    + rewrite IH by constructor. now rewrite <- app_assoc.
    + inversion He; discriminate.
    + inversion He; subst. rewrite IH by assumption. now rewrite <- app_assoc.
Qed.

Lemma scan_rows_all (rs : list Row) (errs : list (option error)) :
  Forall (fun o => o = None) errs ->
  API.scan_rows rs errs None = Ok (API.slice_of (map API.Scan rs)).
Proof.
  intros He. destruct rs as [|r rs]; [reflexivity|]. simpl.
  destruct errs as [|[e|] errs].
  - now rewrite scan_rows_some by constructor.
  - inversion He; discriminate.
  - inversion He; subst. now rewrite scan_rows_some by assumption.
Qed.

Lemma scan_rows_fault (rs : list Row) :
  forall (errs : list (option error)) (acc : option (list Product)) (e : error),
    first_fault (List.length rs) errs = Some e ->
    API.scan_rows rs errs acc = Err e.
Proof.
  induction rs as [|r rs IH]; intros errs acc e H; simpl in *.
  - discriminate.
  - destruct errs as [|[e'|] errs]; try discriminate.
    + congruence.
    + now apply IH.
Qed.

Lemma method_not (m a : string) : m <> a -> String.eqb m a = false.
Proof. intros H. now apply String.eqb_neq. Qed.

(** A preflight request is answered with status 200, the three CORS
    headers and no body, whatever the state of the database: the query is
    never issued. *)
Theorem preflight_is_answered_without_query (env : API.Env) (t : Table)
    (r : API.Request) :
  API.Method r = "OPTIONS" ->
  API.serve env t r
  = {| API.status := 200; API.headers := API.cors_headers; API.payload := "" |}.
Proof. intros H. rewrite serve_steps, H. reflexivity. Qed.

(** Every method other than GET and OPTIONS is refused with status 405
    and the text of http.Error, the CORS headers still set, whatever the
    state of the database. *)
Theorem other_methods_are_refused (env : API.Env) (t : Table) (r : API.Request) :
  API.Method r <> "GET" -> API.Method r <> "OPTIONS" ->
  API.serve env t r
  = {| API.status := 405;
       API.headers := (API.cors_headers ++ API.text_headers)%list;
       API.payload := "Method not allowed" ++ API.newline |}.
Proof.
  intros H1 H2. rewrite serve_steps, (method_not _ _ H2). unfold API.products_handler.
  rewrite (method_not _ _ H1). cbn [negb]. apply error_steps.
Qed.

(** A GET whose query fails, or one of whose rows cannot be scanned, is
    answered with status 500 and the text of the error alone: no product
    is sent, not even those scanned before the failing row. *)
Theorem database_errors_give_500 (env : API.Env) (t : Table) (r : API.Request)
    (e : error) :
  API.Method r = "GET" ->
  API.query_err env = Some e \/
  (API.query_err env = None /\
   first_fault (List.length (API.result_set env (rows t))) (API.scan_errs env) = Some e) ->
  API.serve env t r
  = {| API.status := 500;
       API.headers := (API.cors_headers ++ API.text_headers)%list;
       API.payload := e ++ API.newline |}.
Proof.
  intros Hm [Hq|[Hq Hs]]; rewrite serve_steps; unfold API.products_handler;
    rewrite Hm, Hq; cbn [String.eqb Ascii.eqb Bool.eqb negb].
  - apply error_steps.
  - rewrite (scan_rows_fault _ _ _ _ Hs). apply error_steps.
Qed.

(** A GET on a database that answers is given status 200, the JSON
    content type, and the encoding of the products scanned from the rows
    in the order the database yields them; for a table without rows the
    encoder is given the nil slice, and when the encoder returns an error
    the body is empty with the same status and headers. *)
Theorem get_returns_the_rows (env : API.Env) (t : Table) (r : API.Request) :
  API.Method r = "GET" ->
  API.query_err env = None ->
  Forall (fun o => o = None) (API.scan_errs env) ->
  API.serve env t r
  = {| API.status := 200;
       API.headers := (API.cors_headers ++ [("Content-Type", "application/json")])%list;
       API.payload :=
         API.encoded env (API.slice_of (map API.Scan (API.result_set env (rows t)))) |}.
Proof.
  intros Hm Hq Hs. rewrite serve_steps. unfold API.products_handler. rewrite Hm, Hq.
  cbn [String.eqb Ascii.eqb Bool.eqb negb].
  rewrite (scan_rows_all _ _ Hs). apply encode_steps.
Qed.

(** Every response of the handler carries the three CORS headers,
    whatever the method and whatever the database does. *)
Theorem every_response_has_cors_headers (env : API.Env) (t : Table) (r : API.Request) :
  firstn 3 (API.headers (API.serve env t r)) = API.cors_headers.
Proof.
  rewrite serve_steps.
  destruct (String.eqb (API.Method r) "OPTIONS"); [reflexivity|].
  unfold API.products_handler.
  destruct (negb (String.eqb (API.Method r) "GET")); [now rewrite error_steps|].
  destruct (API.query_err env); [now rewrite error_steps|].
  destruct (API.scan_rows _ _ _); [|now rewrite error_steps].
  cbv zeta. now rewrite encode_steps.
Qed.

(** ** From an upsert to the read API *)

Lemma upsert_then_select (d : DB) (p : Product) :
  unique_url (products d) ->
  snd (updateProduct d p) = None ->
  exists r, select_url (URL p) (products (fst (updateProduct d p))) = [r] /\
            row_matches r p.
Proof.
  intros Hu He. rewrite (updateProduct_nil d p He).
  destruct (unique_select (URL p) (products d) Hu) as [Hn|[r Hr]].
  - rewrite select_upsert_absent by exact Hn. eexists. split; [reflexivity|].
    repeat split.
  - rewrite select_upsert_present by (rewrite Hr; discriminate).
    rewrite Hr. eexists. split; [reflexivity|]. repeat split.
Qed.

Lemma filter_scan (u : string) (l : list Row) :
  filter (fun q => String.eqb (URL q) u) (map API.Scan l)
  = map API.Scan (filter (conflict u) l).
Proof.
  induction l as [|r l IH]; simpl; [reflexivity|].
  unfold conflict at 1. destruct (String.eqb (url r) u); simpl; now rewrite IH.
Qed.

Lemma filter_permutation {A} (f : A -> bool) (l l' : list A) :
  Permutation l l' -> Permutation (filter f l) (filter f l').
Proof.
  induction 1 as [|x l l' H IH|x y l|l1 l2 l3 H1 IH1 H2 IH2]; simpl.
  - constructor.
  - destruct (f x); [now constructor|exact IH].
  - destruct (f x), (f y); try apply Permutation_refl. apply perm_swap.
  - eapply Permutation_trans; eassumption.
Qed.

(** After a table holds one row for [u], a GET on a healthy database sends
    the encoding of a slice with exactly one product of url [u], scanned
    from that row. *)
Lemma get_after_row (env : API.Env) (t : Table) (r : API.Request) (u : string) (row : Row) :
  API.healthy env ->
  API.Method r = "GET" ->
  select_url u t = [row] ->
  exists l,
    API.payload (API.serve env t r) = API.encoded env (Some l) /\
    filter (fun x => String.eqb (URL x) u) l = [API.Scan row].
Proof.
  intros [Hq [Hp Hs]] Hm Hsel.
  exists (map API.Scan (API.result_set env (rows t))).
  assert (filter (fun x => String.eqb (URL x) u)
            (map API.Scan (API.result_set env (rows t))) = [API.Scan row]) as Hf.
  { rewrite filter_scan.
    assert (Permutation (filter (conflict u) (API.result_set env (rows t))) [row]) as P.
    { unfold select_url in Hsel. rewrite <- Hsel. apply filter_permutation, Hp. }
    apply Permutation_sym, Permutation_length_1_inv in P. now rewrite P. }
  split; [|exact Hf].
  rewrite serve_steps. unfold API.products_handler. rewrite Hm, Hq.
  cbn [String.eqb Ascii.eqb Bool.eqb negb].
  rewrite (scan_rows_all _ _ Hs). cbv zeta. rewrite encode_steps.
  destruct (map API.Scan (API.result_set env (rows t))) as [|q l] eqn:E;
    [discriminate|reflexivity].
Qed.

(** Round trip through the store: after an upsert of p that returned no
    error on a table with unique urls, a GET on a healthy database sends a
    slice that holds exactly one product of the url of p, and its name,
    in_stock, price, image_url and updated_at are those of p. *)
Theorem upsert_then_get (d : DB) (p : Product) (env : API.Env) (r : API.Request) :
  unique_url (products d) ->
  snd (updateProduct d p) = None ->
  API.healthy env ->
  API.Method r = "GET" ->
  exists l q,
    API.payload (API.serve env (products (fst (updateProduct d p))) r)
    = API.encoded env (Some l) /\
    filter (fun x => String.eqb (URL x) (URL p)) l = [q] /\
    URL q = URL p /\ Name q = Name p /\ InStock q = InStock p /\ Price q = Price p /\
    ImageURL q = ImageURL p /\ UpdatedAt q = UpdatedAt p.
Proof.
  intros Hu He Hh Hm.
  destruct (upsert_then_select d p Hu He) as [row [Hsel [M1 [M2 [M3 [M4 M5]]]]]].
  destruct (get_after_row env _ r (URL p) row Hh Hm Hsel) as [l [Hp Hf]].
  exists l, (API.Scan row). split; [exact Hp|]. split; [exact Hf|].
  assert (In row (select_url (URL p) (products (fst (updateProduct d p))))) as Hin
    by (rewrite Hsel; now left).
  apply filter_In in Hin. destruct Hin as [_ Hc]. apply String.eqb_eq in Hc.
  simpl. auto 10.
Qed.

(** From the page to the API: after an attempt with outcome Success whose
    upsert returned no error, on a table with unique urls, a GET on a
    healthy database sends a slice with exactly one product for the url of
    the attempt, and its name, in_stock and image_url are those of the
    Success outcome. *)
Theorem scrape_then_get (env : Scraper.Attempt) (url : string) (w : World)
    (api : API.Env) (r : API.Request) (n : string) (s : bool) (i : string) :
  ScraperOutcome.outcome env url = Success n s i ->
  snd (updateProduct (db w) (ScraperOutcome.scraped env url)) = None ->
  unique_url (products (db w)) ->
  API.healthy api ->
  API.Method r = "GET" ->
  exists l q,
    API.payload (API.serve api (products (db (world (Scraper.scrape_url env url w)))) r)
    = API.encoded api (Some l) /\
    filter (fun x => String.eqb (URL x) url) l = [q] /\
    Name q = n /\ InStock q = s /\ ImageURL q = i /\
    UpdatedAt q = Scraper.scraped_at env.
Proof.
  intros Ho He Hu Hh Hm.
  assert (snd (ScraperOutcome.attempt_run env url) = None) as E.
  { unfold ScraperOutcome.outcome, outcome_of in Ho.
    destruct (snd (ScraperOutcome.attempt_run env url)); [discriminate|reflexivity]. }
  unfold ScraperOutcome.outcome, outcome_of in Ho. rewrite E in Ho.
  injection Ho as <- <- <-.
  destruct (scrape_url_success env url w E) as [Hd _]. rewrite Hd.
  destruct (upsert_then_select (db w) _ Hu He) as [row [Hsel [M1 [M2 [M3 [M4 M5]]]]]].
  destruct (get_after_row api _ r url row Hh Hm Hsel) as [l [Hp Hf]].
  exists l, (API.Scan row). split; [exact Hp|]. split; [exact Hf|].
  simpl. auto.
Qed.

(** ** What the diagnostic capture does *)

Lemma screenshot_run_spec (site : Site) (d : Page) (q : Z) (l : Locals) :
  let r := run_actions site d [FullScreenshot q] l in
  snd r = run_fault 1 site /\
  doc (fst r) = d /\
  (run_fault 1 site = None -> v_buf (vars (fst r)) = png site).
Proof.
  cbv zeta. unfold run_actions, run_fault.
  destruct (launch site) as [e|]; [repeat split; discriminate|].
  cbn [Do primitive].
  destruct (outcomes site) as [|[e|] rest]; cbn [first_fault effect pending doc vars fst snd v_buf];
    repeat split; discriminate.
Qed.

(** The screenshot of a failed attempt is taken in a browser of its own
    that is never sent to the url: its run is the FullScreenshot action
    alone, and its tab still shows the blank page when the attempt ends.
    With the run and the write both going through, the picture is written
    to a file named after the clock and that is logged; a write error is
    logged; an error of the screenshot run itself leaves no log line and
    no file. *)
Theorem capture_of_a_failed_attempt (env : Scraper.Attempt) (url : string) (w : World)
    (e : error) :
  ScraperOutcome.outcome env url = Failure e ->
  let r := Scraper.scrape_url env url w in
  let filename := "screenshots/screenshot_" ++ itoa (Scraper.shot_at env) ++ ".png" in
  let failed := "Failed to load or scrape page " ++ url ++ ": " ++ e in
  tabs (world r) (4 + next_ctx w)%nat = about_blank /\
  nth 1 (runs (events r)) (0%nat, []) = ((5 + next_ctx w)%nat, [FullScreenshot 90]) /\
  match run_fault 1 (Scraper.shot env), Scraper.write_err env with
  | Some _, _ =>
      logged (events r) = ["Navigating to: " ++ url; failed] /\
      filter is_capture (events r)
      = [Ran {| cid := (5 + next_ctx w)%nat; tab := Some (4 + next_ctx w)%nat |}
             [FullScreenshot 90]]
  | None, Some ew =>
      logged (events r)
      = ["Navigating to: " ++ url; "Failed to write screenshot: " ++ ew; failed] /\
      In (WroteFile filename (png (Scraper.shot env)) (Some ew)) (events r)
  | None, None =>
      logged (events r)
      = ["Navigating to: " ++ url;
         "Saved screenshot for " ++ url ++ " as " ++ filename; failed] /\
      In (WroteFile filename (png (Scraper.shot env)) None) (events r)
  end.
Proof.
  intros H. apply outcome_failure in H. cbv zeta.
  destruct w as [d n tb].
  unfold Scraper.scrape_url, Scraper.capture. step. rewrite ?Nat.eqb_refl.
  fold (ScraperOutcome.attempt_run env url).
  destruct (ScraperOutcome.attempt_run env url) as [s o]. cbn [fst snd] in H. subst o.
  step. rewrite ?Nat.eqb_refl.
  destruct (screenshot_run_spec (Scraper.shot env) about_blank 90 (vars s))
    as [S1 [S2 S3]]. cbv zeta in S1, S2, S3.
  destruct (run_actions (Scraper.shot env) about_blank [FullScreenshot 90] (vars s))
    as [s' o'].
  cbn [fst snd] in *. subst o'.
  destruct (run_fault 1 (Scraper.shot env)) as [e'|]; step.
  - rewrite ?Nat.eqb_refl. split; [exact S2|]. split; [reflexivity|].
    split; reflexivity.
  - rewrite (S3 eq_refl).
    destruct (Scraper.write_err env) as [ew|]; step; rewrite ?Nat.eqb_refl;
      (split; [exact S2|]); (split; [reflexivity|]); (split; [reflexivity|]);
      cbn [In app]; tauto.
Qed.

(** ** The further properties at sample inputs *)

(** Two cycles over [urlA; urlB] from the empty table. *)
Lemma cycles_keep_unique_url_witness :
  unique_url (products (db (world (Scraper.loop 2 (fun _ => Sample.cycle_AB) 0 Background
                                     Sample.w0)))).
Proof.
  apply (proj1 cycles_keep_unique_url 2%nat (fun _ => Sample.cycle_AB) 0%nat Background
           Sample.w0).
  apply empty_table_unique.
Defined.

(** An upsert of [urlB] and the record stored for [urlA]. *)
Lemma updateProduct_leaves_other_urls_witness :
  select_url Sample.urlA
    (products (fst (updateProduct (db Sample.w_priced)
                      (ScraperOutcome.scraped Sample.attempt_ok Sample.urlB))))
  = select_url Sample.urlA (products (db Sample.w_priced)).
Proof.
  apply (updateProduct_leaves_other_urls (db Sample.w_priced)
           (ScraperOutcome.scraped Sample.attempt_ok Sample.urlB) Sample.urlA).
  discriminate.
Defined.

(** A successful run on [urlA] while the database refuses the statement. *)
Lemma database_error_witness :
  products (db (world (Scraper.scrape_url Sample.attempt_ok Sample.urlA Sample2.w_db_down)))
  = products (db Sample2.w_db_down) /\
  logged (events (Scraper.scrape_url Sample.attempt_ok Sample.urlA Sample2.w_db_down))
  = [ "Navigating to: " ++ Sample.urlA;
      "Product: " ++ Name (ScraperOutcome.scraped Sample.attempt_ok Sample.urlA);
      "In Stock: " ++ btoa (InStock (ScraperOutcome.scraped Sample.attempt_ok Sample.urlA));
      "Database error: " ++ "pq: connection refused" ] /\
  slept (events (Scraper.scrape_url Sample.attempt_ok Sample.urlA Sample2.w_db_down))
  = [ (2 + rand_Intn (Scraper.rnd_pre Sample.attempt_ok) 5) * Second;
      (5 + rand_Intn (Scraper.rnd_post Sample.attempt_ok) 10) * Second ].
Proof.
  apply (database_error_is_logged_and_passed Sample.attempt_ok Sample.urlA
           Sample2.w_db_down "pq: connection refused"); reflexivity.
Defined.

(** The cycle over [urlA; urlB], of which [urlB] times out. *)
Lemma upserts_follow_the_list_witness :
  map URL (upserted (events (Scraper.scrapeProducts Sample.cycle_AB Background Sample.w0)))
  = succeeded (Scraper.attempts Sample.cycle_AB) 0 [Sample.urlA; Sample.urlB].
Proof.
  apply (upserts_follow_the_list Sample.cycle_AB Background Sample.w0 "[...]"
           [Sample.urlA; Sample.urlB]); reflexivity.
Defined.

(** Five iterations without urls.json. *)
Lemma idle_cycles_spin_witness :
  world (Scraper.loop 5 (fun _ => Sample.cycle_missing) 0 Background Sample.w0) = Sample.w0 /\
  forallb is_log
    (events (Scraper.loop 5 (fun _ => Sample.cycle_missing) 0 Background Sample.w0)) = true /\
  (5 <= List.length
          (events (Scraper.loop 5 (fun _ => Sample.cycle_missing) 0 Background Sample.w0)))%nat.
Proof.
  apply (idle_cycles_spin 5 (fun _ => Sample.cycle_missing) 0 Background Sample.w0).
  intros j. exact I.
Defined.

Lemma preflight_witness :
  API.serve Sample2.api_down (products (db Sample.w_priced)) {| API.Method := "OPTIONS" |}
  = {| API.status := 200; API.headers := API.cors_headers; API.payload := "" |}.
Proof.
  apply (preflight_is_answered_without_query Sample2.api_down
           (products (db Sample.w_priced)) {| API.Method := "OPTIONS" |}).
  reflexivity.
Defined.

Lemma other_methods_witness :
  API.serve Sample2.api_ok (products (db Sample.w_priced)) {| API.Method := "POST" |}
  = {| API.status := 405;
       API.headers := (API.cors_headers ++ API.text_headers)%list;
       API.payload := "Method not allowed" ++ API.newline |}.
Proof.
  apply (other_methods_are_refused Sample2.api_ok (products (db Sample.w_priced))
           {| API.Method := "POST" |}); discriminate.
Defined.

(** A query that fails, and a first row that cannot be scanned. *)
Lemma database_errors_give_500_witness :
  API.serve Sample2.api_down (products (db Sample.w_priced)) {| API.Method := "GET" |}
  = {| API.status := 500;
       API.headers := (API.cors_headers ++ API.text_headers)%list;
       API.payload := "dial tcp: connection refused" ++ API.newline |} /\
  API.serve Sample2.api_bad_row (products (db Sample.w_priced)) {| API.Method := "GET" |}
  = {| API.status := 500;
       API.headers := (API.cors_headers ++ API.text_headers)%list;
       API.payload := "sql: Scan error on column index 2" ++ API.newline |}.
Proof.
  split.
  - apply (database_errors_give_500 Sample2.api_down (products (db Sample.w_priced))
             {| API.Method := "GET" |} "dial tcp: connection refused");
      [reflexivity|left; reflexivity].
  - apply (database_errors_give_500 Sample2.api_bad_row (products (db Sample.w_priced))
             {| API.Method := "GET" |} "sql: Scan error on column index 2");
      [reflexivity|right; split; reflexivity].
Defined.

(** The empty table, and an encoder that fails. *)
Lemma get_returns_the_rows_witness :
  API.serve Sample2.api_ok empty_table {| API.Method := "GET" |}
  = {| API.status := 200;
       API.headers := (API.cors_headers ++ [("Content-Type", "application/json")])%list;
       API.payload := API.encoded Sample2.api_ok None |} /\
  API.serve Sample2.api_no_json (products (db Sample.w_priced)) {| API.Method := "GET" |}
  = {| API.status := 200;
       API.headers := (API.cors_headers ++ [("Content-Type", "application/json")])%list;
       API.payload := "" |}.
Proof.
  split.
  - apply (get_returns_the_rows Sample2.api_ok empty_table {| API.Method := "GET" |});
      [reflexivity|reflexivity|constructor].
  - apply (get_returns_the_rows Sample2.api_no_json (products (db Sample.w_priced))
             {| API.Method := "GET" |}); [reflexivity|reflexivity|constructor].
Defined.

Lemma api_ok_healthy : API.healthy Sample2.api_ok.
Proof.
  split; [reflexivity|]. split; [intros l; apply Permutation_refl|constructor].
Defined.

(** An upsert over the priced record of [urlA], then a GET. *)
Lemma upsert_then_get_witness :
  let p := Sample.product_v "Gadget" true float64_zero 3 in
  exists l q,
    API.payload (API.serve Sample2.api_ok
                   (products (fst (updateProduct (db Sample.w_priced) p)))
                   {| API.Method := "GET" |})
    = API.encoded Sample2.api_ok (Some l) /\
    filter (fun x => String.eqb (URL x) (URL p)) l = [q] /\
    URL q = URL p /\ Name q = Name p /\ InStock q = InStock p /\ Price q = Price p /\
    ImageURL q = ImageURL p /\ UpdatedAt q = UpdatedAt p.
Proof.
  cbv zeta.
  apply (upsert_then_get (db Sample.w_priced)
           (Sample.product_v "Gadget" true float64_zero 3) Sample2.api_ok
           {| API.Method := "GET" |}).
  - unfold unique_url. simpl. constructor; [intros []|constructor].
  - reflexivity.
  - exact api_ok_healthy.
  - reflexivity.
Defined.

(** A successful attempt on [urlA], then a GET. *)
Lemma scrape_then_get_witness :
  exists l q,
    API.payload
      (API.serve Sample2.api_ok
         (products (db (world (Scraper.scrape_url Sample.attempt_ok Sample.urlA
                                 Sample.w_priced))))
         {| API.Method := "GET" |})
    = API.encoded Sample2.api_ok (Some l) /\
    filter (fun x => String.eqb (URL x) Sample.urlA) l = [q] /\
    Name q = "Widget" /\ InStock q = true /\ ImageURL q = "" /\
    UpdatedAt q = Scraper.scraped_at Sample.attempt_ok.
Proof.
  apply (scrape_then_get Sample.attempt_ok Sample.urlA Sample.w_priced Sample2.api_ok
           {| API.Method := "GET" |} "Widget" true "").
  - reflexivity.
  - reflexivity.
  - unfold unique_url. simpl. constructor; [intros []|constructor].
  - exact api_ok_healthy.
  - reflexivity.
Defined.

(** The attempt whose name script fails and whose screenshot run fails
    too. *)
Lemma capture_of_a_failed_attempt_witness :
  tabs (world (Scraper.scrape_url Sample.attempt_eval_error Sample.urlA Sample.w0)) 5%nat
  = about_blank /\
  nth 1 (runs (events (Scraper.scrape_url Sample.attempt_eval_error Sample.urlA Sample.w0)))
      (0%nat, [])
  = (6%nat, [FullScreenshot 90]) /\
  logged (events (Scraper.scrape_url Sample.attempt_eval_error Sample.urlA Sample.w0))
  = ["Navigating to: " ++ Sample.urlA;
     "Failed to load or scrape page " ++ Sample.urlA ++ ": " ++ "exception in script"] /\
  filter is_capture
    (events (Scraper.scrape_url Sample.attempt_eval_error Sample.urlA Sample.w0))
  = [Ran {| cid := 6%nat; tab := Some 5%nat |} [FullScreenshot 90]].
Proof.
  exact (capture_of_a_failed_attempt Sample.attempt_eval_error Sample.urlA Sample.w0
           "exception in script" eq_refl).
Defined.
